(** * get_data.py: the fetch / filter / aggregate pipeline

    A shallow embedding of [src/get_data.py] and the properties of its
    retrying fetch, year discovery, session-scope filter, incremental CSV
    aggregator and driver loop.

    Conventions of the embedding.
    - A Python [str] is the Rocq [string] of its UTF-8 bytes, and [bytes]
      are a [string] as they are.  What Python does with text after the
      Unicode tables ([str.lower], [str.upper], [int] of a text) is a
      parameter of the development; [bytes.strip], which acts on ASCII
      white space, is defined.
    - A [pd.DataFrame] is its list of column labels and its list of rows.
      The row index is left out: the program never observes it
      ([to_csv(index=False)], the loop over [iterrows] discards it, masks
      are built from [df.index] itself and therefore line up position by
      position).
    - Effects (HTTP requests, sleeps, the file system, the two output
      streams, the clock) are fields of an explicit [World]; code that can
      raise runs in a state-and-exception monad over it. *)

From Stdlib Require Import ZArith Ascii String Floats.SpecFloat.
From stdpp Require Import base strings list gmap pretty sorting.

Local Open Scope Z_scope.
Local Open Scope string_scope.
Local Open Scope list_scope.
#[local] Set Warnings "-register-all".

(** ** Strings *)

(** [pat in s]; also [re.search(pat, s)] for a pattern without
    metacharacters, which is how [Series.str.contains] is used below. *)
Fixpoint str_contains (pat s : string) : bool :=
  String.prefix pat s ||
  match s with
  | EmptyString => false
  | String _ s' => str_contains pat s'
  end.

(** ASCII whitespace as [bytes.strip] understands it:
    space, [\t], [\n], [\v], [\f], [\r]. *)
Definition is_space (c : ascii) : bool :=
  let n := Ascii.N_of_ascii c in
  ((n =? 32) || ((9 <=? n) && (n <=? 13)))%N.

Fixpoint lstrip (s : string) : string :=
  match s with
  | EmptyString => EmptyString
  | String c s' => if is_space c then lstrip s' else s
  end.

Definition rstrip (s : string) : string :=
  String.rev (lstrip (String.rev s)).

Definition strip (s : string) : string := rstrip (lstrip s).

(** The line feed. *)
Definition newline : string := String (Ascii.ascii_of_nat 10) EmptyString.

(** ** Cells and frames *)

(** What a cell of a frame read by [pd.read_csv] can hold.  A missing value
    is the float NaN, [SFloat S754_nan]. *)
Inductive Scalar :=
| SStr (s : string)
| SInt (z : Z)
| SBool (b : bool)
| SFloat (f : spec_float).

Definition Row := list Scalar.

(** Column labels are pairwise distinct: [read_csv] renames duplicates and
    [pd.DataFrame()] has none. *)
Record DataFrame := mkDataFrame {
  columns : list string;
  rows : list Row;
  columns_nodup : bool_decide (NoDup columns) = true
}.

(** [pd.DataFrame()] *)
Definition empty_frame : DataFrame := mkDataFrame [] [] eq_refl.

(** [df.empty]: some axis has length 0 *)
Definition df_empty (df : DataFrame) : bool :=
  match columns df, rows df with
  | [], _ | _, [] => true
  | _, _ => false
  end.

(** [len(df)] *)
Definition df_len (df : DataFrame) : nat := length (rows df).

(** Position of label [c] among the labels [cs]. *)
Fixpoint col_index (c : string) (cs : list string) : option nat :=
  match cs with
  | [] => None
  | c' :: cs' => if String.eqb c c' then Some 0%nat else S <$> col_index c cs'
  end.

(** [r[c]] for a row [r] of a frame with labels [cs]; [None] is [KeyError]. *)
Definition row_get (cs : list string) (r : Row) (c : string) : option Scalar :=
  i ← col_index c cs; r !! i.

Definition NaN : Scalar := SFloat S754_nan.

(** [df[c]] as the list of its cells, for a label [c] of [df].  A row too
    short to have the cell reads as NaN, as [read_csv] pads it. *)
Definition getitem (df : DataFrame) (c : string) : list Scalar :=
  map (fun r => default NaN (row_get (columns df) r c)) (rows df).

(** Boolean masks ([pd.Series] of [bool] over [df.index]). *)
Definition mask_or (m1 m2 : list bool) : list bool := zip_with orb m1 m2.

(** [m.any()] *)
Definition mask_any (m : list bool) : bool := existsb id m.

Fixpoint select {A} (m : list bool) (xs : list A) : list A :=
  match m, xs with
  | b :: m', x :: xs' => if b then x :: select m' xs' else select m' xs'
  | _, _ => []
  end.

(** [df.loc[m]] for a boolean mask [m] over the rows of [df] *)
Definition loc (df : DataFrame) (m : list bool) : DataFrame :=
  mkDataFrame (columns df) (select m (rows df)) (columns_nodup df).

(** [x in (a, b, ...)] for strings *)
Definition str_in (x : string) (xs : list string) : bool :=
  existsb (String.eqb x) xs.

(** [int(f)] for a float: the value cut towards zero; NaN and the
    infinities raise. *)
Definition int_of_float (f : spec_float) : option Z :=
  match f with
  | S754_zero _ => Some 0
  | S754_finite s m e =>
      let v := Z.shiftl (Z.pos m) e in
      Some (if s then - v else v)
  | S754_infinity _ | S754_nan => None
  end.

(** ** Requests, exceptions and the world *)

(** Values of the keyword arguments of [fetch_csv]. *)
Inductive PyVal :=
| PInt (z : Z)
| PStr (s : string).

Record Response := mkResponse {
  status_code : Z;
  content : string
}.

(** The exceptions the program meets.  [RuntimeError] is the one raised by
    [fetch_csv]; it keeps the three values its message interpolates.
    [FsError cls] is an exception raised by a call on the file system (an
    [OSError] of class [cls]).  [LibError cls] is any other [Exception]
    raised by a library call ([requests.get], [pd.read_csv], a dictionary
    or attribute lookup), by class name. *)
Inductive exn :=
| HTTPError (response : option Response)
| LibError (cls : string)
| FsError (cls : string)
| RuntimeError (endpoint : string) (params : gmap string PyVal) (err : option exn).

Record Request := mkRequest {
  req_url : string;
  req_params : gmap string PyVal;
  req_timeout : Z
}.

(** What [requests.get] does with a request: return a response or raise. *)
Inductive Reply :=
| Replied (r : Response)
| Failed (e : exn).

(** A path is its list of components below the working directory; [[]] is
    the working directory. *)
Definition Path := list string.

Inductive Node :=
| File (data : string)
| Dir.

(** Each [print] of [main], as its message template and the values it
    interpolates; [LogOutput] keeps [OUT_DIR] as it is before [resolve()]. *)
Inductive Log :=
| LogNoYears
| LogDetected (years : list Z)
| LogSessionsError (y : Z) (e : exn)
| LogYear (y : Z) (sessions targets : nat)
| LogWarn (y key : Z) (ep : string) (e : exn)
| LogDone (years : list Z) (total_sessions total_targets : nat)
| LogOutput (dir : Path)
| LogFile (name : string).

Inductive Event :=
| Get (rq : Request)
| Sleep (seconds : Z)
| Stdout (l : Log)
| Stderr (l : Log).

Record World := mkWorld {
  net : nat -> Request -> Reply;   (* the reply to the k-th request, k from 0 *)
  sent : nat;                      (* requests issued so far *)
  trace : list Event;              (* what happened so far, oldest first *)
  fs : gmap Path Node;             (* files and directories *)
  utc_year : Z                     (* [datetime.utcnow().year] *)
}.

(** ** The monad of effectful code *)

Inductive outcome (A : Type) :=
| Ok (a : A)
| Raise (e : exn)
| Exit (code : Z).      (* [sys.exit], which [except Exception] lets through *)
Arguments Ok {A} a.
Arguments Raise {A} e.
Arguments Exit {A} code.

Definition M (A : Type) : Type := World -> outcome A * World.

#[global] Instance M_ret : MRet M := fun A a w => (Ok a, w).

#[global] Instance M_bind : MBind M := fun A B f c w =>
  match c w with
  | (Ok a, w') => f a w'
  | (Raise e, w') => (Raise e, w')
  | (Exit n, w') => (Exit n, w')
  end.

Definition raise {A} (e : exn) : M A := fun w => (Raise e, w).

Definition sys_exit {A} (code : Z) : M A := fun w => (Exit code, w).

(** [try: c  except Exception as e: h e] *)
Definition try_except {A} (c : M A) (h : exn -> M A) : M A := fun w =>
  match c w with
  | (Raise e, w') => h e w'
  | r => r
  end.

Definition emit (ev : Event) : M unit := fun w =>
  (Ok tt, mkWorld (net w) (sent w) (trace w ++ [ev]) (fs w) (utc_year w)).

(** [requests.get(url, params=params, timeout=timeout)] *)
Definition requests_get (url : string) (params : gmap string PyVal) (timeout : Z)
    : M Response := fun w =>
  let rq := mkRequest url params timeout in
  let w' := mkWorld (net w) (S (sent w)) (trace w ++ [Get rq]) (fs w) (utc_year w) in
  match net w (sent w) rq with
  | Replied r => (Ok r, w')
  | Failed e => (Raise e, w')
  end.

(** [time.sleep(d)] *)
Definition sleep (d : Z) : M unit := emit (Sleep d).

Definition print (l : Log) : M unit := emit (Stdout l).
Definition print_err (l : Log) : M unit := emit (Stderr l).

(** [datetime.utcnow().year] *)
Definition utcnow_year : M Z := fun w => (Ok (utc_year w), w).

(** [r.raise_for_status()] *)
Definition raise_for_status (r : Response) : M unit :=
  if ((400 <=? status_code r) && (status_code r <? 600))%Z
  then raise (HTTPError (Some r)) else mret tt.

(** *** Files *)

Definition node_at (w : World) (p : Path) : option Node :=
  match p with
  | [] => Some Dir
  | _ => fs w !! p
  end.

Definition set_fs (f : gmap Path Node -> gmap Path Node) : M unit := fun w =>
  (Ok tt, mkWorld (net w) (sent w) (trace w) (f (fs w)) (utc_year w)).

(** [p.parent] *)
Definition parent (p : Path) : Path := removelast p.

(** [p.exists()] *)
Definition path_exists (p : Path) : M bool := fun w =>
  (Ok (bool_decide (is_Some (node_at w p))), w).

(** [p.unlink()] *)
Definition unlink (p : Path) : M unit := fun w =>
  match node_at w p with
  | Some (File _) => set_fs (delete p) w
  | Some Dir => (Raise (FsError "IsADirectoryError"), w)
  | None => (Raise (FsError "FileNotFoundError"), w)
  end.

(** Directories are made from the top: [made] is there, [todo] remains.
    A file in the way raises [FileExistsError] when it sits at the path
    itself and [NotADirectoryError] when it sits above it. *)
Fixpoint mkdir_from (made : Path) (todo : list string) : M unit :=
  match todo with
  | [] => mret tt
  | c :: todo' =>
      let p := (made ++ [c]) in
      fun w =>
        match node_at w p with
        | Some Dir => mkdir_from p todo' w
        | Some (File _) =>
            (Raise (FsError (match todo' with
                             | [] => "FileExistsError"
                             | _ => "NotADirectoryError"
                             end)), w)
        | None => (set_fs (<[p := Dir]>) ;; mkdir_from p todo') w
        end
  end.

(** [p.mkdir(parents=True, exist_ok=True)] *)
Definition mkdir (p : Path) : M unit := mkdir_from [] p.

(** Opening [p] for writing: [Some old] is the data already there. *)
Definition open_write (p : Path) : M (option string) := fun w =>
  match node_at w p with
  | Some (File old) => (Ok (Some old), w)
  | Some Dir => (Raise (FsError "IsADirectoryError"), w)
  | None =>
      match node_at w (parent p) with
      | Some Dir => (Ok None, w)
      | Some (File _) => (Raise (FsError "NotADirectoryError"), w)
      | None => (Raise (FsError "FileNotFoundError"), w)
      end
  end.

(** [p.write_text(text)] *)
Definition write_text (p : Path) (text : string) : M unit :=
  _ ← open_write p; set_fs (<[p := File text]>).

(** [open(p, "a").write(text)].  A write fails on account of what is at
    the path or above it; failures of the medium while the bytes go out
    (a full disk, a lost mount) are outside the model. *)
Definition append_text (p : Path) (text : string) : M unit :=
  old ← open_write p; set_fs (<[p := File (default "" old +:+ text)]>).

(** [open(p, "rb").read(n)] *)
Definition read_bytes (p : Path) (n : nat) : M string := fun w =>
  match node_at w p with
  | Some (File data) => (Ok (substring 0 n data), w)
  | Some Dir => (Raise (FsError "IsADirectoryError"), w)
  | None => (Raise (FsError "FileNotFoundError"), w)
  end.

(** [try: c  except cls: h] for one class of file-system exception *)
Definition try_except_cls {A} (cls : string) (c : M A) (h : M A) : M A := fun w =>
  match c w with
  | (Raise (FsError cls'), w') =>
      if String.eqb cls' cls then h w' else (Raise (FsError cls'), w')
  | r => r
  end.

(** [for x in xs: body x] *)
Fixpoint for_each {A} (xs : list A) (body : A -> M unit) : M unit :=
  match xs with
  | [] => mret tt
  | x :: xs' => body x ;; for_each xs' body
  end.

(** [range(a, b)] *)
Definition range (a b : Z) : list Z := seqZ a (b - a).

(** The world [w] after [k] more requests and the events [evs]. *)
Definition advance (w : World) (k : nat) (evs : list Event) : World :=
  mkWorld (net w) (sent w + k) (trace w ++ evs) (fs w) (utc_year w).

(** The world [w] with the file [p] holding [data]. *)
Definition put (w : World) (p : Path) (data : string) : World :=
  mkWorld (net w) (sent w) (trace w) (<[p := File data]> (fs w)) (utc_year w).

(** The seconds slept, in order. *)
Definition delays (evs : list Event) : list Z :=
  omap (fun ev => match ev with Sleep d => Some d | _ => None end) evs.

(** ** The module's settings *)

Record Config := mkConfig {
  BASE : string;
  SESSION_SCOPE : string;
  INCLUDE_MEETINGS : bool;
  DOWNLOAD_LAPS : bool;
  TIMEOUT : Z;
  RETRIES : nat;
  BACKOFF : Z;          (* 2.0 in the source; its powers are whole numbers *)
  OUT_DIR : Path;
  OVERWRITE : bool
}.

(** The values the source assigns. *)
Definition module_config : Config := {|
  BASE := "https://api.openf1.org/v1";
  SESSION_SCOPE := "RACE_SPRINT";
  INCLUDE_MEETINGS := true;
  DOWNLOAD_LAPS := false;
  TIMEOUT := 60;
  RETRIES := 4;
  BACKOFF := 2;
  OUT_DIR := ["data"; "openf1_full"];
  OVERWRITE := true
|}.

Record CSVAgg := mkCSVAgg { agg_path : Path }.

(** Every character is ASCII whitespace. *)
Fixpoint all_space (s : string) : bool :=
  match s with
  | EmptyString => true
  | String c s' => is_space c && all_space s'
  end.


(** [w'] differs from [w] in the file system at most. *)
Definition same_but_fs (w w' : World) : Prop :=
  net w' = net w /\ sent w' = sent w /\ trace w' = trace w /\ utc_year w' = utc_year w.


(** A remote side that answers every request with "no data". *)
Definition no_data_net (n : nat -> Request -> Reply) : Prop :=
  forall k rq, exists r,
    n k rq = Replied r /\
    (status_code r = 204 \/ status_code r = 400 \/ status_code r = 404).




(** ** Sample inputs *)

(** Stand-ins for the library behaviour left open below, good enough for
    the inputs of the examples: [str] of a float, right on the special
    values and on whole numbers of moderate size; a record laid out with
    commas, right for fields that need no quoting; a parser that knows one
    body. *)
Definition sample_repr_float (f : spec_float) : string :=
  match f with
  | S754_nan => "nan"
  | S754_infinity s => if s then "-inf" else "inf"
  | S754_zero s => if s then "-0.0" else "0.0"
  | S754_finite s m e =>
      (if s then "-" else "") +:+ pretty (Z.shiftl (Z.pos m) e) +:+ ".0"
  end.

Definition sample_csv_record (fields : list string) : string :=
  String.concat "," fields.

(** Stand-ins for what Python does with text after the Unicode tables,
    right on ASCII text of moderate length, as the examples have it: the
    case mappings change the 26 letters; a numeral is an optional sign and
    decimal digits, single underscores allowed between digits, within
    white space. *)
Definition ascii_lower (c : ascii) : ascii :=
  let n := Ascii.N_of_ascii c in
  if ((65 <=? n) && (n <=? 90))%N then Ascii.ascii_of_N (n + 32) else c.

Definition ascii_upper (c : ascii) : ascii :=
  let n := Ascii.N_of_ascii c in
  if ((97 <=? n) && (n <=? 122))%N then Ascii.ascii_of_N (n - 32) else c.

Fixpoint str_map (f : ascii -> ascii) (s : string) : string :=
  match s with
  | EmptyString => EmptyString
  | String c s' => String (f c) (str_map f s')
  end.

Definition lower_ascii : string -> string := str_map ascii_lower.
Definition upper_ascii : string -> string := str_map ascii_upper.

Definition is_space_str (c : ascii) : bool :=
  let n := Ascii.N_of_ascii c in
  (is_space c || ((28 <=? n) && (n <=? 31)))%N.

Fixpoint lstrip_str (s : string) : string :=
  match s with
  | EmptyString => EmptyString
  | String c s' => if is_space_str c then lstrip_str s' else s
  end.

Definition strip_str (s : string) : string :=
  String.rev (lstrip_str (String.rev (lstrip_str s))).

Definition digit_of (c : ascii) : option Z :=
  let n := Ascii.N_of_ascii c in
  if ((48 <=? n) && (n <=? 57))%N then Some (Z.of_N (n - 48)) else None.

Fixpoint parse_digits (s : string) (acc : Z) (after_digit : bool) : option Z :=
  match s with
  | EmptyString => if after_digit then Some acc else None
  | String c s' =>
      match digit_of c with
      | Some d => parse_digits s' (10 * acc + d) true
      | None =>
          if Ascii.eqb c "_" && after_digit then parse_digits s' acc false
          else None
      end
  end.

Definition int_of_ascii (s : string) : option Z :=
  match strip_str s with
  | String "-" ds => Z.opp <$> parse_digits ds 0 false
  | String "+" ds => parse_digits ds 0 false
  | ds => parse_digits ds 0 false
  end.

(** A stand-in for [iterrows], right for frames whose columns each hold
    integers of the int64 range only, floats only, or anything else (read
    as a column of objects): when every column is of integers or of floats
    and both kinds are there, the common dtype is float64 and the integers
    are handed out as the nearest doubles; otherwise the cells are handed
    out as stored. *)
Definition is_int (v : Scalar) : bool :=
  match v with SInt _ => true | _ => false end.

Definition is_float (v : Scalar) : bool :=
  match v with SFloat _ => true | _ => false end.

Definition column_cells (df : DataFrame) (i : nat) : list Scalar :=
  map (fun r => default NaN (r !! i)) (rows df).

Definition float_of_int (z : Z) : spec_float := binary_normalize 53 1024 z 0 false.

Definition upcast (v : Scalar) : Scalar :=
  match v with
  | SInt z => SFloat (float_of_int z)
  | _ => v
  end.

Definition sample_iterrows (df : DataFrame) : list Row :=
  let cols := map (column_cells df) (seq 0 (length (columns df))) in
  if forallb (fun c => forallb is_int c || forallb is_float c) cols
     && existsb (forallb is_int) cols && existsb (forallb is_float) cols
  then map (map upcast) (rows df)
  else rows df.

Definition sessions_frame : DataFrame :=
  mkDataFrame ["session_key"; "Session_Name"]
    [[SInt 9158; SStr "Race"];
     [SInt 9159; SStr "Qualifying"];
     [SStr "n/a"; SStr "Sprint"]] eq_refl.

Definition sessions_csv : string :=
  "session_key,Session_Name" +:+ newline +:+
  "9158,Race" +:+ newline +:+
  "9159,Qualifying" +:+ newline +:+
  "n/a,Sprint" +:+ newline.

Definition sample_read_csv (data : string) : exn + DataFrame :=
  if String.eqb data sessions_csv then inr sessions_frame
  else inl (LibError "ParserError").

(** The frames of the filter examples. *)
Definition three_sessions : DataFrame :=
  mkDataFrame ["session_name"]
    [[SStr "Race"]; [SStr "Qualifying"]; [SStr "Sprint"]] eq_refl.

Definition race_only : DataFrame :=
  mkDataFrame ["session_name"] [[SStr "Race"]] eq_refl.

Definition practice_only : DataFrame :=
  mkDataFrame ["session_name"; "session_type"]
    [[SStr "Practice 1"; SStr "P"]; [SStr "Qualifying"; SStr "Q"]] eq_refl.

(** The frames of the aggregator examples. *)
Definition stints_a : DataFrame :=
  mkDataFrame ["lap"; "compound"] [[SInt 1; SStr "SOFT"]; [SInt 18; SStr "HARD"]] eq_refl.

Definition stints_b : DataFrame :=
  mkDataFrame ["lap"; "compound"] [[SInt 1; SStr "MEDIUM"]] eq_refl.

Definition header_only : DataFrame :=
  mkDataFrame ["lap"; "compound"] [] eq_refl.

Definition stints_path : Path := ["data"; "openf1_full"; "stints_all.csv"].

(** Remote sides: one that fails twice before it answers, one that is
    down, one that knows no such session, one with data for 2018 only. *)
Definition flaky_net (k : nat) (rq : Request) : Reply :=
  if (k <? 2)%nat then Failed (LibError "ConnectionError")
  else Replied (mkResponse 200 sessions_csv).

Definition down_net (k : nat) (rq : Request) : Reply :=
  Replied (mkResponse 503 "Service Unavailable").

Definition unknown_net (k : nat) (rq : Request) : Reply :=
  if (k <? 1)%nat then Failed (LibError "Timeout")
  else Replied (mkResponse 404 "<html>Not Found</html>").

Definition only_2018_net (k : nat) (rq : Request) : Reply :=
  match req_params rq !! "year" with
  | Some (PInt 2018) => Replied (mkResponse 200 sessions_csv)
  | _ => Replied (mkResponse 200 "")
  end.

(** A world that has seen nothing yet, and one left by an earlier run. *)
Definition new_world (n : nat -> Request -> Reply) : World :=
  mkWorld n 0 [] ∅ 2024.

Definition used_world : World :=
  mkWorld down_net 0 []
    (<[stints_path := File "stale"]>
       (<[["data"] := Dir]> (<[["data"; "openf1_full"] := Dir]> ∅)))
    2024.

(** The module's settings with overwrite off. *)
Definition append_config : Config := {|
  BASE := BASE module_config;
  SESSION_SCOPE := SESSION_SCOPE module_config;
  INCLUDE_MEETINGS := INCLUDE_MEETINGS module_config;
  DOWNLOAD_LAPS := DOWNLOAD_LAPS module_config;
  TIMEOUT := TIMEOUT module_config;
  RETRIES := RETRIES module_config;
  BACKOFF := BACKOFF module_config;
  OUT_DIR := OUT_DIR module_config;
  OVERWRITE := false
|}.

(** More remote sides: one that answers with white space, one whose
    bodies the sample parser refuses, one without data for anything. *)
Definition blank_net (k : nat) (rq : Request) : Reply :=
  Replied (mkResponse 200 (" " +:+ newline +:+ "  ")).

Definition garbled_net (k : nat) (rq : Request) : Reply :=
  Replied (mkResponse 200 "<<<not csv>>>").

Definition quiet_net (k : nat) (rq : Request) : Reply :=
  Replied (mkResponse 204 "").

(** A world whose output directory is there and empty, and one where a
    file sits in the place of the directory "data". *)
Definition ready_world (n : nat -> Request -> Reply) : World :=
  mkWorld n 0 []
    (<[["data"] := Dir]> (<[["data"; "openf1_full"] := Dir]> ∅)) 2024.


(** The dictionary of aggregators that [main] builds with the module's
    settings. *)
Definition sample_aggs : gmap string (option CSVAgg) :=
  list_to_map
    [("sessions_all", Some (mkCSVAgg ["data"; "openf1_full"; "sessions_all.csv"]));
     ("meetings_all", Some (mkCSVAgg ["data"; "openf1_full"; "meetings_all.csv"]));
     ("stints", Some (mkCSVAgg stints_path));
     ("pit", Some (mkCSVAgg ["data"; "openf1_full"; "pit_all.csv"]));
     ("weather", Some (mkCSVAgg ["data"; "openf1_full"; "weather_all.csv"]));
     ("starting_grid", Some (mkCSVAgg ["data"; "openf1_full"; "starting_grid_all.csv"]));
     ("session_result", Some (mkCSVAgg ["data"; "openf1_full"; "session_result_all.csv"]));
     ("race_control", Some (mkCSVAgg ["data"; "openf1_full"; "race_control_all.csv"]));
     ("laps", None)].


Section Pipeline.

(** Library behaviour the embedding does not fix:
    - [lower s] and [upper s] are [s.lower()] and [s.upper()], Python's
      case mappings of a text;
    - [int_of_str s] is [int(s)] for a text [s], [None] when it raises;
    - [iterrows df] are the rows [df.iterrows()] hands out, in order, the
      cells of each in the order of the columns and cast to the common
      dtype of the columns (so an integer of a frame of integer and float
      columns is handed out as a float);
    - [repr_float f] is Python's [str(f)] for a float (shortest text that
      reads back as [f]; ["nan"], ["inf"], ["-inf"] for the specials);
    - [csv_record fs] is how [csv.writer] lays out the fields [fs] of one
      record (delimiter and minimal quoting), without the line end;
    - [read_csv data] is [pd.read_csv(BytesIO(data))], a frame or the
      exception raised.
    [cfg] holds the module's global settings. *)
Variable lower upper : string -> string.
Variable int_of_str : string -> option Z.
Variable iterrows : DataFrame -> list Row.
Variable repr_float : spec_float -> string.
Variable csv_record : list string -> string.
Variable read_csv : string -> exn + DataFrame.
Variable cfg : Config.

(** *** fetch_csv *)

(** The [try] block of one attempt. *)
Definition attempt (url : string) (params : gmap string PyVal) : M DataFrame :=
  r ← requests_get url params (TIMEOUT cfg);
  if ((status_code r =? 204) || (status_code r =? 400))%Z then mret empty_frame
  else
    raise_for_status r ;;
    if String.eqb (content r) "" || String.eqb (strip (content r)) ""
    then mret empty_frame
    else
      match read_csv (content r) with
      | inl e => raise e
      | inr df => mret df
      end.

(** The [except] clauses: [inl df] is [return df], [inr e] is [err = e]. *)
Definition on_error (e : exn) : DataFrame + exn :=
  match e with
  | HTTPError (Some r) =>
      if ((status_code r =? 400) || (status_code r =? 404))%Z
      then inl empty_frame else inr e
  | _ => inr e
  end.

(** One turn of the loop up to the [sleep]. *)
Definition attempt_or_error (url : string) (params : gmap string PyVal)
    : M (DataFrame + exn) :=
  try_except (df ← attempt url params; mret (inl df))
             (fun e => mret (on_error e)).

(** [for a in attempts: ...] followed by the final [raise], with [err] as
    the loop has left it so far. *)
Fixpoint fetch_loop (endpoint url : string) (params : gmap string PyVal)
    (attempts : list nat) (err : option exn) : M DataFrame :=
  match attempts with
  | [] => raise (RuntimeError endpoint params err)
  | a :: rest =>
      r ← attempt_or_error url params;
      match r with
      | inl df => mret df
      | inr e =>
          sleep (BACKOFF cfg ^ Z.of_nat a) ;;
          fetch_loop endpoint url params rest (Some e)
      end
  end.

Definition fetch_csv (endpoint : string) (params : gmap string PyVal) : M DataFrame :=
  let url := BASE cfg +:+ "/" +:+ endpoint in
  let params := <["csv" := PStr "true"]> params in
  fetch_loop endpoint url params (seq 0 (RETRIES cfg)) None.

(** What one attempt makes of the reply it gets: the frame returned or the
    error kept in [err]. *)
Definition blank (data : string) : bool :=
  String.eqb data "" || String.eqb (strip data) "".

Definition is_error_status (code : Z) : bool := ((400 <=? code) && (code <? 600))%Z.

Definition reply_outcome (rp : Reply) : DataFrame + exn :=
  match rp with
  | Failed e => on_error e
  | Replied r =>
      if ((status_code r =? 204) || (status_code r =? 400))%Z then inl empty_frame
      else if is_error_status (status_code r) then on_error (HTTPError (Some r))
      else if blank (content r) then inl empty_frame
      else
        match read_csv (content r) with
        | inl e => on_error e
        | inr df => inl df
        end
  end.

(** The request [fetch_csv endpoint params] sends, again at every attempt. *)
Definition request_of (endpoint : string) (params : gmap string PyVal) : Request :=
  mkRequest (BASE cfg +:+ "/" +:+ endpoint) (<["csv" := PStr "true"]> params) (TIMEOUT cfg).

(** The events of the failed attempts numbered [attempts]: the request,
    then the sleep of [BACKOFF ** a]. *)
Definition retry_events (rq : Request) (attempts : list nat) : list Event :=
  concat (map (fun a => [Get rq; Sleep (BACKOFF cfg ^ Z.of_nat a)]) attempts).

(** Transient failures as the specification lists them, with the
    underlying error: [requests.get] raising (connection error, timeout), or
    a response with an HTTP error status other than 400 and 404. *)
Definition transient_failure (rp : Reply) : option exn :=
  match rp with
  | Failed (LibError cls) => Some (LibError cls)
  | Failed _ => None
  | Replied r =>
      if is_error_status (status_code r)
         && negb ((status_code r =? 400) || (status_code r =? 404))%Z
      then Some (HTTPError (Some r)) else None
  end.

(** A success, with the table it gives: a response without an HTTP error
    status, which is empty for 204 or a blank body and parsed otherwise. *)
Definition success_table (rp : Reply) : option DataFrame :=
  match rp with
  | Failed _ => None
  | Replied r =>
      if is_error_status (status_code r) then None
      else if (status_code r =? 204)%Z || blank (content r) then Some empty_frame
      else
        match read_csv (content r) with
        | inl _ => None
        | inr df => Some df
        end
  end.

(** *** available_years *)

(** The loop over the years, [yrs] being the list built so far. *)
Fixpoint probe_years (ys : list Z) (yrs : list Z) : M (list Z) :=
  match ys with
  | [] => mret yrs
  | y :: ys' =>
      yrs' ← try_except
               (df ← fetch_csv "sessions" {["year" := PInt y]};
                mret (if negb (df_empty df) then (yrs ++ [y]) else yrs))
               (fun _ => mret yrs);
      probe_years ys' yrs'
  end.

(** [end_to or datetime.utcnow().year]: [None] and [0] are both falsy. *)
Definition end_or_now (end_to : option Z) : M Z :=
  match end_to with
  | Some e => if (e =? 0)%Z then utcnow_year else mret e
  | None => utcnow_year
  end.

Definition available_years (start_from : Z) (end_to : option Z) : M (list Z) :=
  end_to ← end_or_now end_to;
  probe_years (range start_from (end_to + 1)) [].

(** The last year probed: [end_to], or the current year when [end_to] is
    [None] or [0]. *)
Definition end_year (end_to : option Z) (w : World) : Z :=
  match end_to with
  | Some e => if (e =? 0)%Z then utc_year w else e
  | None => utc_year w
  end.

(** Discovery in the specification's words: the years [ys] are probed in
    turn, each by one call of [fetch_csv] for the sessions of that year; a
    year is kept when the call returns a non-empty frame and dropped when it
    returns an empty one or raises.  [discovers ys w yrs w'] : probing [ys]
    from the world [w] keeps [yrs] and ends in [w']. *)
Inductive discovers : list Z -> World -> list Z -> World -> Prop :=
| discovers_done w :
    discovers [] w [] w
| discovers_kept y ys w df w1 yrs w2 :
    fetch_csv "sessions" {["year" := PInt y]} w = (Ok df, w1) ->
    df_empty df = false ->
    discovers ys w1 yrs w2 ->
    discovers (y :: ys) w (y :: yrs) w2
| discovers_no_data y ys w df w1 yrs w2 :
    fetch_csv "sessions" {["year" := PInt y]} w = (Ok df, w1) ->
    df_empty df = true ->
    discovers ys w1 yrs w2 ->
    discovers (y :: ys) w yrs w2
| discovers_failed y ys w e w1 yrs w2 :
    fetch_csv "sessions" {["year" := PInt y]} w = (Raise e, w1) ->
    discovers ys w1 yrs w2 ->
    discovers (y :: ys) w yrs w2.

(** *** filter_sessions *)

(** [{c.lower(): c for c in labels}]: a later label replaces an earlier
    one with the same lower-case form. *)
Definition lower_index (labels : list string) : gmap string string :=
  foldl (fun m c => <[lower c := c]> m) ∅ labels.

(** [str(v)], cell by cell what [Series.astype(str)] does *)
Definition py_str (v : Scalar) : string :=
  match v with
  | SStr s => s
  | SInt z => pretty z
  | SBool b => if b then "True" else "False"
  | SFloat f => repr_float f
  end.

(** [df[cols[key]].astype(str).str.<case>() if key in cols else None] *)
Definition text_column (df : DataFrame) (cols : gmap string string)
    (key : string) (case : string -> string) : option (list string) :=
  c ← cols !! key; Some (map (fun v => case (py_str v)) (getitem df c)).

(** [m |= f(s)] when the column [s] is there *)
Definition mask_or_col (m : list bool) (s : option (list string))
    (f : string -> bool) : list bool :=
  match s with
  | Some xs => mask_or m (map f xs)
  | None => m
  end.

(** The mask [m] at the [return] of [filter_sessions] *)
Definition session_mask (df : DataFrame) (scope : string) : list bool :=
  let cols := lower_index (columns df) in
  let sn := text_column df cols "session_name" lower in
  let st := text_column df cols "session_type" upper in
  let m := repeat false (length (rows df)) in
  let m :=
    if str_in scope ["RACE"; "RACE_SPRINT"] then
      let m := mask_or_col m sn (String.eqb "race") in
      mask_or_col m st (String.eqb "R")
    else m in
  let m :=
    if String.eqb scope "RACE_SPRINT" then
      let m := mask_or_col m sn (str_contains "sprint") in
      mask_or_col m st (fun t => str_in t ["S"; "SPRINT"])
    else m in
  m.

Definition filter_sessions (df : DataFrame) (scope : string) : DataFrame :=
  if df_empty df || String.eqb scope "ALL" then df
  else
    let m := session_mask df scope in
    if mask_any m then loc df m else df.

(** The label the dictionary of lower-cased labels holds under [key]: the
    last of the labels whose lower-case form is [key]. *)
Definition find_column (key : string) (labels : list string) : option string :=
  last (List.filter (fun c => String.eqb (lower c) key) labels).

(** The text [filter_sessions] sees of row [r] in the column found under
    [key], if there is one. *)
Definition row_text (df : DataFrame) (key : string) (r : Row) : option string :=
  c ← find_column key (columns df);
  Some (py_str (default NaN (row_get (columns df) r c))).

(** What the updates of [m] come to for one row, given the texts of its
    two columns. *)
Definition scope_selects (scope : string) (name type : option string) : bool :=
  (str_in scope ["RACE"; "RACE_SPRINT"]
   && (from_option (fun n => String.eqb "race" (lower n)) false name
       || from_option (fun t => String.eqb "R" (upper t)) false type))
  || (String.eqb scope "RACE_SPRINT"
      && (from_option (fun n => str_contains "sprint" (lower n)) false name
          || from_option (fun t => str_in (upper t) ["S"; "SPRINT"]) false type)).

Definition row_selected (df : DataFrame) (scope : string) (r : Row) : bool :=
  scope_selects scope (row_text df "session_name" r) (row_text df "session_type" r).

(** The selection in the specification's words.  A cell is read as its
    text; a column is called [key] up to case when the lower-case form of
    its label is [key], and of several such columns the last one counts; a
    name is compared in its lower-case form, a type in its upper-case
    form. *)
Inductive text_of : Scalar -> string -> Prop :=
| text_of_str s : text_of (SStr s) s
| text_of_int z : text_of (SInt z) (pretty z)
| text_of_true : text_of (SBool true) "True"
| text_of_false : text_of (SBool false) "False"
| text_of_float f : text_of (SFloat f) (repr_float f).

Definition named_cell (df : DataFrame) (key : string) (r : Row) (s : string) : Prop :=
  exists i c,
    columns df !! i = Some c /\ lower c = key /\
    (forall j c', columns df !! j = Some c' -> lower c' = key -> (j <= i)%nat) /\
    text_of (default NaN (r !! i)) s.

Definition is_substring (pat s : string) : Prop :=
  exists pre post, s = pre +:+ pat +:+ post.

Definition selects (df : DataFrame) (scope : string) (r : Row) : Prop :=
  ((scope = "RACE" \/ scope = "RACE_SPRINT") /\
   ((exists n, named_cell df "session_name" r n /\ lower n = "race") \/
    (exists t, named_cell df "session_type" r t /\ upper t = "R")))
  \/
  (scope = "RACE_SPRINT" /\
   ((exists n, named_cell df "session_name" r n /\ is_substring "sprint" (lower n)) \/
    (exists t, named_cell df "session_type" r t /\ (upper t = "S" \/ upper t = "SPRINT")))).

(** *** CSVAgg *)

Definition CSVAgg_init (path : Path) : M CSVAgg :=
  ex ← path_exists path;
  (if ex && OVERWRITE cfg then unlink path else mret tt) ;;
  mkdir (parent path) ;;
  mret (mkCSVAgg path).

Definition CSVAgg_has_header (self : CSVAgg) : M bool :=
  try_except_cls "FileNotFoundError"
    (b ← read_bytes (agg_path self) 1; mret (negb (String.eqb b "")))
    (mret false).

(** A cell as [to_csv] writes it: NaN is the empty field. *)
Definition cell_text (v : Scalar) : string :=
  match v with
  | SFloat S754_nan => ""
  | _ => py_str v
  end.

Definition csv_line (fields : list string) : string := csv_record fields +:+ newline.

Definition header_text (df : DataFrame) : string := csv_line (columns df).

Definition rows_text (df : DataFrame) : string :=
  String.concat "" (map (fun r => csv_line (map cell_text r)) (rows df)).

(** [df.to_csv(path, index=False, mode="a", header=header)]: the header,
    if asked for, and the data lines go out in one append, which fails
    only where the file cannot be opened (see [append_text]). *)
Definition to_csv (df : DataFrame) (path : Path) (header : bool) : M unit :=
  append_text path ((if header then header_text df else "") +:+ rows_text df).

(** [df] is [None] or a frame. *)
Definition CSVAgg_append (self : CSVAgg) (df : option DataFrame) : M unit :=
  match df with
  | None => mret tt
  | Some df =>
      if df_empty df then mret tt
      else
        ex ← path_exists (agg_path self);
        (if negb ex then write_text (agg_path self) "" else mret tt) ;;
        has ← CSVAgg_has_header self;
        to_csv df (agg_path self) (negb has)
  end.

(** The data lines of the non-empty frames among [dfs], in order. *)
Definition appended_rows (dfs : list DataFrame) : string :=
  String.concat "" (map rows_text (List.filter (fun df => negb (df_empty df)) dfs)).

(** *** main *)

(** [aggs[name]] *)
Definition aggs_get (aggs : gmap string (option CSVAgg)) (name : string)
    : M (option CSVAgg) :=
  match aggs !! name with
  | Some a => mret a
  | None => raise (LibError "KeyError")
  end.

(** [aggs[name].append(df)] *)
Definition aggs_append (aggs : gmap string (option CSVAgg)) (name : string)
    (df : DataFrame) : M unit :=
  a ← aggs_get aggs name;
  match a with
  | Some agg => CSVAgg_append agg (Some df)
  | None => raise (LibError "AttributeError")
  end.

Definition session_endpoints : list (string * string) :=
  [("stints", "stints"); ("pit", "pit"); ("weather", "weather");
   ("starting_grid", "starting_grid"); ("session_result", "session_result");
   ("race_control", "race_control")].

(** The body of [for ep, name in [...]] *)
Definition endpoint_body (aggs : gmap string (option CSVAgg)) (y key : Z)
    (e : string * string) : M unit :=
  try_except
    (df ← fetch_csv e.1 {["session_key" := PInt key]};
     aggs_append aggs e.2 df)
    (fun err => print_err (LogWarn y key e.1 err)).

(** What follows [key = int(r[sk])] in the loop over the target rows. *)
Definition session_fetch (aggs : gmap string (option CSVAgg)) (y key : Z) : M unit :=
  for_each session_endpoints (endpoint_body aggs y key) ;;
  if DOWNLOAD_LAPS cfg then
    laps ← aggs_get aggs "laps";
    match laps with
    | Some agg =>
        try_except
          (df ← fetch_csv "laps" {["session_key" := PInt key]};
           CSVAgg_append agg (Some df))
          (fun err => print_err (LogWarn y key "laps" err))
    | None => mret tt
    end
  else mret tt.

(** [int(v)]; [None] stands for the exception raised. *)
Definition py_int (v : Scalar) : option Z :=
  match v with
  | SInt z => Some z
  | SBool b => Some (if b then 1 else 0)
  | SFloat f => int_of_float f
  | SStr s => int_of_str s
  end.

(** [int(r[sk])] for a row [r] handed out by [iterrows] on a frame with
    labels [cs]; [None] when either the lookup or the conversion raises. *)
Definition session_key_of (cs : list string) (sk : string) (r : Row) : option Z :=
  v ← row_get cs r sk; py_int v.

(** The body of [for _, r in tgt.iterrows()] *)
Definition session_body (aggs : gmap string (option CSVAgg)) (y : Z)
    (cs : list string) (sk : string) (r : Row) : M unit :=
  match session_key_of cs sk r with
  | None => mret tt
  | Some key => session_fetch aggs y key
  end.

(** The body of [for y in years], from the running totals to the new ones. *)
Definition year_body (aggs : gmap string (option CSVAgg)) (y : Z)
    (totals : nat * nat) : M (nat * nat) :=
  got ← try_except
          (sessions ← fetch_csv "sessions" {["year" := PInt y]}; mret (Some sessions))
          (fun e => print_err (LogSessionsError y e) ;; mret None);
  match got with
  | None => mret totals
  | Some sessions =>
      aggs_append aggs "sessions_all" sessions ;;
      (if INCLUDE_MEETINGS cfg then
         meetings ← aggs_get aggs "meetings_all";
         match meetings with
         | Some agg =>
             try_except
               (m ← fetch_csv "meetings" {["year" := PInt y]};
                CSVAgg_append agg (Some m))
               (fun _ => mret tt)
         | None => mret tt
         end
       else mret tt) ;;
      let total_sessions := (totals.1 + df_len sessions)%nat in
      let tgt := filter_sessions sessions (SESSION_SCOPE cfg) in
      let total_targets := (totals.2 + df_len tgt)%nat in
      let cols := lower_index (columns tgt) in
      let sk := default "session_key" (cols !! "session_key") in
      print (LogYear y (df_len sessions) (df_len tgt)) ;;
      for_each (iterrows tgt) (session_body aggs y (columns tgt) sk) ;;
      mret (total_sessions, total_targets)
  end.

Fixpoint year_loop (aggs : gmap string (option CSVAgg)) (years : list Z)
    (totals : nat * nat) : M (nat * nat) :=
  match years with
  | [] => mret totals
  | y :: years' => totals' ← year_body aggs y totals; year_loop aggs years' totals'
  end.

(** [CSVAgg(OUT_DIR / name) if enabled else None] *)
Definition agg_if (enabled : bool) (name : string) : M (option CSVAgg) :=
  if enabled then a ← CSVAgg_init (OUT_DIR cfg ++ [name]); mret (Some a)
  else mret None.

Definition main : M unit :=
  mkdir (OUT_DIR cfg) ;;
  now ← utcnow_year;
  years ← available_years 2018 (Some now);
  match years with
  | [] => print_err LogNoYears ;; sys_exit 1
  | _ =>
      print (LogDetected years) ;;
      a1 ← agg_if true "sessions_all.csv";
      a2 ← agg_if (INCLUDE_MEETINGS cfg) "meetings_all.csv";
      a3 ← agg_if true "stints_all.csv";
      a4 ← agg_if true "pit_all.csv";
      a5 ← agg_if true "weather_all.csv";
      a6 ← agg_if true "starting_grid_all.csv";
      a7 ← agg_if true "session_result_all.csv";
      a8 ← agg_if true "race_control_all.csv";
      a9 ← agg_if (DOWNLOAD_LAPS cfg) "laps_all.csv";
      let aggs : gmap string (option CSVAgg) :=
        list_to_map
          [("sessions_all", a1); ("meetings_all", a2); ("stints", a3);
           ("pit", a4); ("weather", a5); ("starting_grid", a6);
           ("session_result", a7); ("race_control", a8); ("laps", a9)] in
      totals ← year_loop aggs years (0, 0)%nat;
      print (LogDone years totals.1 totals.2) ;;
      print (LogOutput (OUT_DIR cfg)) ;;
      for_each
        (["sessions_all.csv"]
           ++ (if INCLUDE_MEETINGS cfg then ["meetings_all.csv"] else [])
           ++ ["stints_all.csv"; "pit_all.csv"; "weather_all.csv";
               "starting_grid_all.csv"; "session_result_all.csv";
               "race_control_all.csv"]
           ++ (if DOWNLOAD_LAPS cfg then ["laps_all.csv"] else []))
        (fun f => print (LogFile f))
  end.

(** *** Further notions for fetch_csv *)

(** A response that reaches the parser and is refused by it, with the
    parser's error. *)
Definition parse_failure (rp : Reply) : option exn :=
  match rp with
  | Failed _ => None
  | Replied r =>
      if is_error_status (status_code r) || (status_code r =? 204)%Z
         || blank (content r)
      then None
      else
        match read_csv (content r) with
        | inl (LibError cls) => Some (LibError cls)
        | _ => None
        end
  end.

(** Requests and sleeps, the only events [fetch_csv] gives rise to. *)
Definition is_net_event (ev : Event) : bool :=
  match ev with
  | Get _ | Sleep _ => true
  | _ => false
  end.


(** ** Properties *)

(** *** Running monadic code *)

Lemma advance_0 w : advance w 0 [] = w.
Proof. destruct w. unfold advance. simpl. by rewrite Nat.add_0_r, app_nil_r. Qed.

Lemma advance_advance w k1 e1 k2 e2 :
  advance (advance w k1 e1) k2 e2 = advance w (k1 + k2) (e1 ++ e2).
Proof. unfold advance. simpl. by rewrite Nat.add_assoc, app_assoc. Qed.

Lemma bind_run {A B} (c : M A) (f : A -> M B) w :
  (c ≫= f) w =
  match c w with
  | (Ok a, w') => f a w'
  | (Raise e, w') => (Raise e, w')
  | (Exit n, w') => (Exit n, w')
  end.
Proof. reflexivity. Qed.

Ltac run := repeat first [rewrite bind_run | progress cbn [mret M_ret]].

(** *** fetch_csv *)

Lemma attempt_or_error_run url params w :
  attempt_or_error url params w =
  (Ok (reply_outcome (net w (sent w) (mkRequest url params (TIMEOUT cfg)))),
   advance w 1 [Get (mkRequest url params (TIMEOUT cfg))]).
Proof.
  unfold attempt_or_error, try_except, attempt, advance.
  rewrite !bind_run. unfold requests_get.
  rewrite Nat.add_1_r.
  destruct (net w (sent w) _) as [r|e] eqn:Hr; simpl; [|reflexivity].
  destruct ((status_code r =? 204) || (status_code r =? 400))%Z; [reflexivity|].
  rewrite bind_run. unfold raise_for_status, is_error_status.
  destruct ((400 <=? status_code r) && (status_code r <? 600))%Z; [reflexivity|].
  simpl. unfold blank.
  destruct (String.eqb (content r) "" || String.eqb (strip (content r)) ""); [reflexivity|].
  destruct (read_csv (content r)); reflexivity.
Qed.

Lemma sleep_run d w : sleep d w = (Ok tt, advance w 0 [Sleep d]).
Proof. unfold sleep, emit, advance. by rewrite Nat.add_0_r. Qed.

(** [err] after the errors [errs] have been assigned to it in turn. *)
Lemma foldl_last_error (errs : list exn) (err : option exn) :
  foldl (fun _ e => Some e) err errs = from_option Some err (last errs).
Proof.
  revert err. induction errs as [|e errs IH]; intros err; [reflexivity|].
  simpl. rewrite IH. destruct errs as [|e' errs]; [reflexivity|].
  change (last (e :: e' :: errs)) with (last (e' :: errs)).
  destruct (last (e' :: errs)) eqn:Hl; [reflexivity|].
  by apply last_None in Hl.
Qed.

(** A run of failed attempts only moves the loop on: the requests and the
    sleeps are recorded and [err] holds the latest error. *)
Lemma fetch_loop_failures endpoint url params failed rest errs err w :
  length errs = length failed ->
  (forall k e, errs !! k = Some e ->
     reply_outcome (net w (sent w + k) (mkRequest url params (TIMEOUT cfg))) = inr e) ->
  fetch_loop endpoint url params (failed ++ rest) err w =
  fetch_loop endpoint url params rest (foldl (fun _ e => Some e) err errs)
    (advance w (length failed) (retry_events (mkRequest url params (TIMEOUT cfg)) failed)).
Proof.
  revert errs err w.
  induction failed as [|a failed IH]; intros errs err w Hlen Hfail.
  - destruct errs; [|discriminate]. simpl. by rewrite advance_0.
  - destruct errs as [|e errs]; [discriminate|].
    simpl. rewrite bind_run, attempt_or_error_run.
    specialize (Hfail 0%nat e eq_refl) as H0. rewrite Nat.add_0_r in H0. rewrite H0.
    rewrite bind_run, sleep_run, advance_advance.
    rewrite (IH errs (Some e)).
    + rewrite advance_advance. reflexivity.
    + simpl in Hlen. lia.
    + intros k e' Hk. simpl.
      replace (sent w + 1 + k)%nat with (sent w + S k)%nat by lia.
      apply Hfail. exact Hk.
Qed.

Lemma fetch_loop_returns endpoint url params a rest err w df :
  reply_outcome (net w (sent w) (mkRequest url params (TIMEOUT cfg))) = inl df ->
  fetch_loop endpoint url params (a :: rest) err w =
  (Ok df, advance w 1 [Get (mkRequest url params (TIMEOUT cfg))]).
Proof.
  intros H. simpl. rewrite bind_run, attempt_or_error_run, H. reflexivity.
Qed.

(** [fetch_csv] raises nothing but its own [RuntimeError] and never exits. *)
Lemma fetch_loop_outcome endpoint url params attempts err w :
  (exists df w', fetch_loop endpoint url params attempts err w = (Ok df, w')) \/
  (exists last w', fetch_loop endpoint url params attempts err w =
                   (Raise (RuntimeError endpoint params last), w')).
Proof.
  revert err w. induction attempts as [|a attempts IH]; intros err w.
  - right. eexists _, _. reflexivity.
  - simpl. rewrite bind_run, attempt_or_error_run.
    destruct (reply_outcome _) as [df|e].
    + left. eexists _, _. reflexivity.
    + rewrite bind_run, sleep_run. apply IH.
Qed.

Lemma transient_failure_outcome rp e :
  transient_failure rp = Some e -> reply_outcome rp = inr e.
Proof.
  destruct rp as [r|[ | | |]]; simpl; try discriminate.
  - unfold is_error_status.
    destruct (status_code r =? 400)%Z eqn:H400;
      destruct (status_code r =? 404)%Z eqn:H404;
      destruct (status_code r =? 204)%Z eqn:H204;
      destruct ((400 <=? status_code r) && (status_code r <? 600))%Z eqn:He;
      simpl; try discriminate; try (intros [= <-]; reflexivity).
    apply Z.eqb_eq in H204. rewrite H204 in He. discriminate.
  - intros [= <-]. reflexivity.
Qed.

Lemma success_table_outcome rp df :
  success_table rp = Some df -> reply_outcome rp = inl df.
Proof.
  destruct rp as [r|e]; simpl; [|discriminate].
  destruct (is_error_status (status_code r)) eqn:He; [discriminate|].
  destruct (status_code r =? 400)%Z eqn:H400.
  { apply Z.eqb_eq in H400. unfold is_error_status in He. rewrite H400 in He. discriminate. }
  destruct (status_code r =? 204)%Z; simpl.
  { by intros [= <-]. }
  destruct (blank (content r)).
  { by intros [= <-]. }
  destruct (read_csv (content r)); [discriminate|]. by intros [= <-].
Qed.

Lemma no_data_status_outcome r :
  status_code r = 204 \/ status_code r = 400 \/ status_code r = 404 ->
  reply_outcome (Replied r) = inl empty_frame.
Proof.
  intros [H|[H|H]]; simpl; rewrite H; reflexivity.
Qed.

Lemma fetch_csv_return endpoint params w errs df :
  (length errs < RETRIES cfg)%nat ->
  (forall k e, errs !! k = Some e ->
     reply_outcome (net w (sent w + k) (request_of endpoint params)) = inr e) ->
  reply_outcome (net w (sent w + length errs) (request_of endpoint params)) = inl df ->
  fetch_csv endpoint params w =
  (Ok df, advance w (length errs + 1)
            (retry_events (request_of endpoint params) (seq 0 (length errs))
               ++ [Get (request_of endpoint params)])).
Proof.
  intros Hlt Hfail Hret. unfold fetch_csv.
  replace (RETRIES cfg) with (length errs + S (RETRIES cfg - S (length errs)))%nat by lia.
  rewrite seq_app. cbn [seq].
  rewrite (fetch_loop_failures _ _ _ _ _ errs).
  - erewrite fetch_loop_returns.
    + rewrite advance_advance, length_seq. reflexivity.
    + cbn [advance net sent]. rewrite length_seq. exact Hret.
  - by rewrite length_seq.
  - exact Hfail.
Qed.

Lemma fetch_csv_raise endpoint params w errs :
  length errs = RETRIES cfg ->
  (forall k e, errs !! k = Some e ->
     reply_outcome (net w (sent w + k) (request_of endpoint params)) = inr e) ->
  fetch_csv endpoint params w =
  (Raise (RuntimeError endpoint (<["csv" := PStr "true"]> params) (last errs)),
   advance w (RETRIES cfg) (retry_events (request_of endpoint params) (seq 0 (RETRIES cfg)))).
Proof.
  intros Hlen Hfail. unfold fetch_csv.
  rewrite <- (app_nil_r (seq 0 (RETRIES cfg))) at 1.
  rewrite (fetch_loop_failures _ _ _ _ _ errs).
  - cbn [fetch_loop]. rewrite foldl_last_error, length_seq.
    unfold raise. destruct (last errs); reflexivity.
  - by rewrite length_seq.
  - exact Hfail.
Qed.

Lemma delays_retry_events rq attempts :
  delays (retry_events rq attempts) = map (fun a => BACKOFF cfg ^ Z.of_nat a) attempts.
Proof.
  induction attempts as [|a attempts IH]; [reflexivity|].
  change (retry_events rq (a :: attempts))
    with ([Get rq; Sleep (BACKOFF cfg ^ Z.of_nat a)] ++ retry_events rq attempts).
  unfold delays in *. rewrite omap_app, IH. reflexivity.
Qed.

Lemma backoff_increasing i n :
  1 < BACKOFF cfg ->
  StronglySorted Z.lt (map (fun a => BACKOFF cfg ^ Z.of_nat a) (seq i n)).
Proof.
  intros Hb. revert i. induction n as [|n IH]; intros i; simpl.
  - constructor.
  - constructor; [apply IH|].
    apply Forall_forall. intros d Hd.
    apply list_elem_of_In, in_map_iff in Hd as (j & <- & Hj).
    apply in_seq in Hj.
    apply Z.pow_lt_mono_r; lia.
Qed.

(** C1: whenever a call of [fetch_csv] receives a response with status 204,
    400 or 404 (at its first attempt or after earlier attempts that failed),
    it returns the empty frame and raises nothing, whatever the body of the
    response holds. *)
Theorem fetch_csv_no_data_status endpoint params w errs r :
  (length errs < RETRIES cfg)%nat ->
  (forall k e, errs !! k = Some e ->
     reply_outcome (net w (sent w + k) (request_of endpoint params)) = inr e) ->
  net w (sent w + length errs) (request_of endpoint params) = Replied r ->
  status_code r = 204 \/ status_code r = 400 \/ status_code r = 404 ->
  fetch_csv endpoint params w =
  (Ok empty_frame,
   advance w (length errs + 1)
     (retry_events (request_of endpoint params) (seq 0 (length errs))
        ++ [Get (request_of endpoint params)])).
Proof.
  intros Hlt Hfail Hr Hs.
  apply fetch_csv_return; [exact Hlt|exact Hfail|].
  rewrite Hr. by apply no_data_status_outcome.
Qed.

(** C2: facing the transient failures [errs] (a connection error or timeout
    of [requests.get], an HTTP error status other than 400 and 404) at its
    first [N] attempts, [N] within the budget [RETRIES], [fetch_csv] sleeps
    [BACKOFF ** a] after failed attempt [a = 0, 1, ...], delays that grow
    strictly when [BACKOFF > 1]; if attempt [N] then succeeds it returns
    that table, having sent [N + 1] requests; if [N] is the whole budget it
    raises the [RuntimeError] made of the endpoint, the parameters and the
    last error, having sent [RETRIES] requests and no more. *)
Theorem fetch_csv_retry_backoff endpoint params w errs :
  (length errs <= RETRIES cfg)%nat ->
  (forall k e, errs !! k = Some e ->
     transient_failure (net w (sent w + k) (request_of endpoint params)) = Some e) ->
  let rq := request_of endpoint params in
  let N := length errs in
  delays (retry_events rq (seq 0 N)) = map (fun a => BACKOFF cfg ^ Z.of_nat a) (seq 0 N) /\
  (1 < BACKOFF cfg -> StronglySorted Z.lt (delays (retry_events rq (seq 0 N)))) /\
  (forall df, (N < RETRIES cfg)%nat ->
     success_table (net w (sent w + N) rq) = Some df ->
     fetch_csv endpoint params w =
     (Ok df, advance w (N + 1) (retry_events rq (seq 0 N) ++ [Get rq]))) /\
  (N = RETRIES cfg ->
     fetch_csv endpoint params w =
     (Raise (RuntimeError endpoint (req_params rq) (last errs)),
      advance w N (retry_events rq (seq 0 N)))).
Proof.
  intros Hle Hfail rq N.
  assert (Hout : forall k e, errs !! k = Some e ->
            reply_outcome (net w (sent w + k) rq) = inr e).
  { intros k e Hk. by apply transient_failure_outcome, Hfail. }
  split; [apply delays_retry_events|].
  split; [intros Hb; rewrite delays_retry_events; by apply backoff_increasing|].
  split.
  - intros df Hlt Hs. apply fetch_csv_return; [exact Hlt|exact Hout|].
    by apply success_table_outcome.
  - intros HN. subst N. rewrite HN. by apply fetch_csv_raise.
Qed.

(** *** available_years *)

Lemma fetch_csv_outcome endpoint params w :
  (exists df w', fetch_csv endpoint params w = (Ok df, w')) \/
  (exists last w', fetch_csv endpoint params w =
     (Raise (RuntimeError endpoint (<["csv" := PStr "true"]> params) last), w')).
Proof. apply fetch_loop_outcome. Qed.

Lemma end_or_now_run end_to w : end_or_now end_to w = (Ok (end_year end_to w), w).
Proof.
  unfold end_or_now, end_year. destruct end_to as [e|]; [|reflexivity].
  destruct (e =? 0)%Z; reflexivity.
Qed.

Lemma probe_years_discovers ys acc w :
  exists yrs w',
    probe_years ys acc w = (Ok (acc ++ yrs), w') /\ discovers ys w yrs w'.
Proof.
  revert acc w. induction ys as [|y ys IH]; intros acc w.
  - exists [], w. rewrite app_nil_r. split; [reflexivity|constructor].
  - cbn [probe_years]. rewrite bind_run. unfold try_except. rewrite bind_run.
    destruct (fetch_csv_outcome "sessions" {["year" := PInt y]} w)
      as [(df & w1 & Hf)|(last & w1 & Hf)]; rewrite Hf.
    + destruct (df_empty df) eqn:He; simpl.
      * destruct (IH acc w1) as (yrs & w2 & Hrun & Hd).
        exists yrs, w2. split; [exact Hrun|]. by eapply discovers_no_data.
      * destruct (IH (acc ++ [y]) w1) as (yrs & w2 & Hrun & Hd).
        exists (y :: yrs), w2. split.
        -- rewrite Hrun. by rewrite <- app_assoc.
        -- by eapply discovers_kept.
    + simpl. destruct (IH acc w1) as (yrs & w2 & Hrun & Hd).
      exists yrs, w2. split; [exact Hrun|]. by eapply discovers_failed.
Qed.

Lemma discovers_sublist ys w yrs w' : discovers ys w yrs w' -> sublist yrs ys.
Proof. induction 1; by constructor. Qed.

(** C7: [available_years] always returns; the years it probes are those
    from [start_from] to the end year in ascending order, each by one
    [fetch_csv] of the sessions endpoint for that year; it keeps a year
    exactly when that call returned a non-empty frame, and a call that
    raises only drops its year. *)
Theorem available_years_discovers start_from end_to w :
  exists yrs w',
    available_years start_from end_to w = (Ok yrs, w') /\
    discovers (seqZ start_from (end_year end_to w + 1 - start_from)) w yrs w' /\
    sublist yrs (seqZ start_from (end_year end_to w + 1 - start_from)).
Proof.
  unfold available_years. rewrite bind_run, end_or_now_run.
  destruct (probe_years_discovers
              (range start_from (end_year end_to w + 1)) [] w)
    as (yrs & w' & Hrun & Hd).
  exists yrs, w'. split; [exact Hrun|].
  split; [exact Hd|]. by eapply discovers_sublist.
Qed.

(** *** filter_sessions *)

Lemma lower_index_snoc labels c :
  lower_index (labels ++ [c]) = <[lower c := c]> (lower_index labels).
Proof. unfold lower_index. by rewrite foldl_app. Qed.

(** The dictionary built by the comprehension finds the last label that
    has the wanted lower-case form. *)
Lemma lower_index_lookup labels key :
  lower_index labels !! key = find_column key labels.
Proof.
  unfold find_column.
  induction labels as [|c labels IH] using rev_ind; [reflexivity|].
  rewrite lower_index_snoc, List.filter_app. simpl.
  destruct (String.eqb_spec (lower c) key) as [He|He].
  - rewrite He, lookup_insert_eq. by rewrite last_snoc.
  - rewrite lookup_insert_ne by done. by rewrite app_nil_r.
Qed.

Lemma text_column_lower df key case :
  text_column df (lower_index (columns df)) key case =
  (c ← find_column key (columns df);
   Some (map (fun r => case (py_str (default NaN (row_get (columns df) r c)))) (rows df))).
Proof.
  unfold text_column. rewrite lower_index_lookup.
  destruct (find_column key (columns df)) as [c|]; [|reflexivity].
  simpl. unfold getitem. by rewrite map_map.
Qed.

Lemma mask_or_map {A} (f g : A -> bool) (xs : list A) :
  mask_or (map f xs) (map g xs) = map (fun x => f x || g x) xs.
Proof.
  unfold mask_or. induction xs as [|x xs IH]; [reflexivity|].
  simpl. by rewrite IH.
Qed.

Lemma repeat_false_map {A} (xs : list A) :
  repeat false (length xs) = map (fun _ => false) xs.
Proof. induction xs as [|x xs IH]; [reflexivity|]. simpl. by rewrite IH. Qed.

(** The mask, row by row. *)
Lemma session_mask_rows df scope :
  session_mask df scope = map (row_selected df scope) (rows df).
Proof.
  unfold session_mask. rewrite !text_column_lower.
  unfold row_selected, row_text, scope_selects.
  rewrite repeat_false_map.
  destruct (find_column "session_name" (columns df)) as [cn|];
    destruct (find_column "session_type" (columns df)) as [ct|];
    destruct (str_in scope ["RACE"; "RACE_SPRINT"]);
    destruct (String.eqb scope "RACE_SPRINT");
    cbn [mbind option_bind mask_or_col from_option andb orb];
    rewrite ?map_map, ?mask_or_map;
    apply map_ext; intros r;
    cbn [orb andb]; rewrite ?orb_false_r, ?orb_assoc; reflexivity.
Qed.

Lemma select_map {A} (f : A -> bool) (xs : list A) :
  select (map f xs) xs = List.filter f xs.
Proof.
  induction xs as [|x xs IH]; [reflexivity|].
  simpl. rewrite IH. reflexivity.
Qed.

Lemma mask_any_map {A} (f : A -> bool) (xs : list A) :
  mask_any (map f xs) = existsb f xs.
Proof.
  unfold mask_any. induction xs as [|x xs IH]; [reflexivity|].
  simpl. by rewrite IH.
Qed.

Lemma filter_sublist {A} (f : A -> bool) (xs : list A) :
  sublist (List.filter f xs) xs.
Proof.
  induction xs as [|x xs IH]; simpl; [constructor|].
  destruct (f x); by constructor.
Qed.

Lemma filter_shorter {A} (f : A -> bool) (xs : list A) :
  (length (List.filter f xs) < length xs)%nat <-> exists x, x ∈ xs /\ f x = false.
Proof.
  induction xs as [|x xs IH]; simpl.
  - split; [lia|]. intros (x & Hx & _). by apply elem_of_nil in Hx.
  - pose proof (List.filter_length_le f xs) as Hle.
    destruct (f x) eqn:Hfx; simpl.
    + rewrite <- Nat.succ_lt_mono, IH. split.
      * intros (y & Hy & Hf). exists y. split; [by apply elem_of_cons; right|done].
      * intros (y & Hy & Hf). apply elem_of_cons in Hy as [->|Hy]; [congruence|].
        by exists y.
    + split; [|lia]. intros _. exists x. split; [apply elem_of_cons; by left|done].
Qed.

(** [filter_sessions] in terms of the rows the specification selects. *)
Lemma filter_sessions_unfold df scope :
  filter_sessions df scope =
  if df_empty df || String.eqb scope "ALL" then df
  else if existsb (row_selected df scope) (rows df)
       then loc df (map (row_selected df scope) (rows df))
       else df.
Proof.
  unfold filter_sessions. by rewrite session_mask_rows, mask_any_map.
Qed.

(** The code's tests against the specification's words. *)
Lemma prefix_spec pat s :
  String.prefix pat s = true <-> exists post, s = pat +:+ post.
Proof.
  revert s. induction pat as [|a pat IH]; intros s.
  - split; [intros _; by exists s|]. intros _. by destruct s.
  - destruct s as [|b s]; simpl.
    + split; [discriminate|]. intros (post & H). discriminate H.
    + destruct (Ascii.ascii_dec a b) as [->|Hne].
      * rewrite IH. split; intros (post & H); exists post.
        -- change (String b s = String b (pat +:+ post)). by rewrite H.
        -- change (String b s = String b (pat +:+ post)) in H. by injection H.
      * split; [discriminate|]. intros (post & H).
        change (String b s = String a (pat +:+ post)) in H. injection H as H _.
        by destruct Hne.
Qed.

Lemma str_contains_spec pat s :
  str_contains pat s = true <-> is_substring pat s.
Proof.
  unfold is_substring. induction s as [|a s IH].
  - cbn [str_contains]. rewrite orb_false_r, prefix_spec. split.
    + intros (post & H). by exists "", post.
    + intros (pre & post & H). destruct pre as [|c pre]; [by exists post|discriminate H].
  - cbn [str_contains]. rewrite orb_true_iff, prefix_spec, IH. split.
    + intros [(post & H)|(pre & post & H)].
      * by exists "", post.
      * exists (String a pre), post.
        change (String a s = String a (pre +:+ pat +:+ post)). by rewrite H.
    + intros (pre & post & H). destruct pre as [|c pre].
      * left. by exists post.
      * right. exists pre, post.
        change (String a s = String c (pre +:+ pat +:+ post)) in H. by injection H.
Qed.

Lemma col_index_lookup cs i c :
  NoDup cs -> cs !! i = Some c -> col_index c cs = Some i.
Proof.
  intros Hnd. revert i. induction Hnd as [|c' cs Hnotin Hnd IH]; intros i; [done|].
  destruct i as [|i]; simpl.
  - intros [= ->]. by rewrite String.eqb_refl.
  - intros Hi. destruct (String.eqb_spec c c') as [->|_].
    + exfalso. apply Hnotin. by apply (list_elem_of_lookup_2 _ i).
    + by rewrite (IH i Hi).
Qed.

Lemma find_column_spec key cs c :
  find_column key cs = Some c <->
  exists i, cs !! i = Some c /\ lower c = key /\
            forall j c', cs !! j = Some c' -> lower c' = key -> (j <= i)%nat.
Proof.
  unfold find_column.
  induction cs as [|x cs IH] using rev_ind.
  - split; [discriminate|]. by intros (i & Hi & _).
  - rewrite List.filter_app. cbn [List.filter].
    destruct (String.eqb_spec (lower x) key) as [He|He].
    + rewrite last_snoc. split.
      * intros [= <-]. exists (length cs). split; [by rewrite list_lookup_middle|].
        split; [exact He|]. intros j c' Hj _.
        apply lookup_lt_Some in Hj. rewrite length_app in Hj. simpl in Hj. lia.
      * intros (i & Hi & _ & Hmax).
        pose proof (Hmax (length cs) x (list_lookup_middle cs [] x _ eq_refl) He) as Hle.
        pose proof (lookup_lt_Some _ _ _ Hi) as Hlt.
        rewrite length_app in Hlt. simpl in Hlt.
        assert (i = length cs) as -> by lia.
        rewrite list_lookup_middle in Hi by done. exact Hi.
    + rewrite app_nil_r, IH. split.
      * intros (i & Hi & Hc & Hmax). exists i.
        split; [by apply lookup_app_l_Some|]. split; [exact Hc|].
        intros j c' Hj Hc'.
        destruct (decide (j < length cs)%nat) as [Hlt|Hge].
        -- rewrite lookup_app_l in Hj by done. by apply (Hmax j c').
        -- pose proof (lookup_lt_Some _ _ _ Hj) as Hjl.
           rewrite length_app in Hjl. simpl in Hjl.
           assert (j = length cs) as -> by lia.
           rewrite list_lookup_middle in Hj by done. injection Hj as <-. done.
      * intros (i & Hi & Hc & Hmax).
        destruct (decide (i < length cs)%nat) as [Hlt|Hge].
        -- exists i. rewrite lookup_app_l in Hi by done.
           split; [exact Hi|]. split; [exact Hc|].
           intros j c' Hj Hc'. apply (Hmax j c'); [|exact Hc'].
           by apply lookup_app_l_Some.
        -- pose proof (lookup_lt_Some _ _ _ Hi) as Hil.
           rewrite length_app in Hil. simpl in Hil.
           assert (i = length cs) as -> by lia.
           rewrite list_lookup_middle in Hi by done. injection Hi as <-. done.
Qed.

Lemma text_of_spec v s : text_of v s <-> s = py_str v.
Proof.
  split.
  - by intros [].
  - intros ->. destruct v as [s|z|[]|f]; constructor.
Qed.

Lemma row_text_spec df key r s :
  row_text df key r = Some s <-> named_cell df key r s.
Proof.
  pose proof (bool_decide_eq_true_1 _ (columns_nodup df)) as Hnd.
  unfold row_text, named_cell. split.
  - destruct (find_column key (columns df)) as [c|] eqn:Hfind; [|discriminate].
    apply find_column_spec in Hfind as (i & Hi & Hc & Hmax).
    cbn [mbind option_bind]. intros [= <-]. exists i, c.
    split; [exact Hi|]. split; [exact Hc|]. split; [exact Hmax|].
    apply text_of_spec.
    unfold row_get. by rewrite (col_index_lookup _ _ _ Hnd Hi).
  - intros (i & c & Hi & Hc & Hmax & Ht). apply text_of_spec in Ht as ->.
    assert (find_column key (columns df) = Some c) as ->.
    { apply find_column_spec. by exists i. }
    cbn [mbind option_bind]. unfold row_get.
    by rewrite (col_index_lookup _ _ _ Hnd Hi).
Qed.

Lemma cell_test df key r (f : string -> bool) (P : string -> Prop) :
  (forall s, f s = true <-> P s) ->
  from_option f false (row_text df key r) = true <->
  exists s, named_cell df key r s /\ P s.
Proof.
  intros Hf. destruct (row_text df key r) as [s|] eqn:Hr; cbn [from_option].
  - rewrite Hf. split.
    + intros HP. exists s. split; [by apply row_text_spec|exact HP].
    + intros (s' & Hs' & HP). apply row_text_spec in Hs'.
      rewrite Hr in Hs'. by injection Hs' as ->.
  - split; [discriminate|]. intros (s' & Hs' & _).
    apply row_text_spec in Hs'. rewrite Hr in Hs'. discriminate.
Qed.

(** The row-wise form of the mask is the selection in the specification's
    words. *)
Lemma row_selected_spec df scope r :
  row_selected df scope r = true <-> selects df scope r.
Proof.
  unfold row_selected, scope_selects, selects, str_in. cbn [existsb].
  rewrite orb_false_r, orb_true_iff, !andb_true_iff, !orb_true_iff, !String.eqb_eq.
  rewrite (cell_test df "session_name" r _ (fun n => lower n = "race")).
  2:{ intros n. rewrite String.eqb_eq. split; congruence. }
  rewrite (cell_test df "session_type" r _ (fun t => upper t = "R")).
  2:{ intros t. rewrite String.eqb_eq. split; congruence. }
  rewrite (cell_test df "session_name" r _ (fun n => is_substring "sprint" (lower n))).
  2:{ intros n. apply str_contains_spec. }
  rewrite (cell_test df "session_type" r _
             (fun t => upper t = "S" \/ upper t = "SPRINT")).
  2:{ intros t. by rewrite orb_false_r, orb_true_iff, !String.eqb_eq. }
  reflexivity.
Qed.

Lemma Forall2_map_self {A B} (R : A -> B -> Prop) (f : A -> B) (xs : list A) :
  (forall x, R x (f x)) -> Forall2 R xs (map f xs).
Proof. intros HR. induction xs as [|x xs IH]; simpl; by constructor. Qed.

(** C4: the mask [filter_sessions] builds has one entry for each row of
    the frame, and the entry is true exactly when the specification's
    selection holds of the row: under RACE and RACE_SPRINT when its
    session_name is "race" or its session_type is "R", under RACE_SPRINT
    also when its session_name contains "sprint" or its session_type is "S"
    or "SPRINT", all up to case (names in lower case, types in upper case);
    each of the two columns is found up to the case of its label, on its
    own, and counts for nothing when the frame lacks it. *)
Theorem session_mask_selects df scope :
  Forall2 (fun r (b : bool) => b = true <-> selects df scope r)
    (rows df) (session_mask df scope).
Proof.
  rewrite session_mask_rows. apply Forall2_map_self.
  intros r. apply row_selected_spec.
Qed.

Lemma row_selected_ALL df r : row_selected df "ALL" r = false.
Proof. reflexivity. Qed.

(** C3: when no row of the frame satisfies the selection of the scope,
    [filter_sessions] returns the frame it was given, whole. *)
Theorem filter_sessions_fail_open df scope :
  (forall r, r ∈ rows df -> ~ selects df scope r) ->
  filter_sessions df scope = df.
Proof.
  intros Hnone. rewrite filter_sessions_unfold.
  destruct (df_empty df || String.eqb scope "ALL"); [reflexivity|].
  destruct (existsb (row_selected df scope) (rows df)) eqn:Hex; [|reflexivity].
  apply existsb_exists in Hex as (r & Hr & Hsel).
  apply list_elem_of_In in Hr. apply row_selected_spec in Hsel.
  destruct (Hnone r Hr Hsel).
Qed.

(** C5: under scope ALL, and for an empty frame under any scope,
    [filter_sessions] returns its input. *)
Theorem filter_sessions_identity df scope :
  scope = "ALL" \/ df_empty df = true ->
  filter_sessions df scope = df.
Proof.
  intros [-> | Hempty]; unfold filter_sessions.
  - by rewrite orb_true_r.
  - by rewrite Hempty.
Qed.

(** C6, as the code has it: for a non-empty frame with a row that
    satisfies the selection of the scope, [filter_sessions] returns the
    frame of exactly the rows satisfying it, in their order; the result is
    not empty and is a sub-sequence of the input's rows, strictly shorter
    exactly when some row of the input does not satisfy the selection. *)
Theorem filter_sessions_matching df scope :
  df_empty df = false ->
  (exists r, r ∈ rows df /\ selects df scope r) ->
  columns (filter_sessions df scope) = columns df /\
  rows (filter_sessions df scope) = List.filter (row_selected df scope) (rows df) /\
  df_empty (filter_sessions df scope) = false /\
  sublist (rows (filter_sessions df scope)) (rows df) /\
  Forall (selects df scope) (rows (filter_sessions df scope)) /\
  (forall r, r ∈ rows df -> selects df scope r ->
             r ∈ rows (filter_sessions df scope)) /\
  ((length (rows (filter_sessions df scope)) < length (rows df))%nat <->
   exists r, r ∈ rows df /\ ~ selects df scope r).
Proof using Type.
  intros Hne (r & Hr & Hsel). apply row_selected_spec in Hsel.
  assert (Hrows : rows (filter_sessions df scope)
                  = List.filter (row_selected df scope) (rows df)
                  /\ columns (filter_sessions df scope) = columns df).
  { rewrite filter_sessions_unfold, Hne. simpl.
    destruct (String.eqb_spec scope "ALL") as [->|_].
    { by rewrite row_selected_ALL in Hsel. }
    assert (existsb (row_selected df scope) (rows df) = true) as ->.
    { apply existsb_exists. exists r. split; [by apply list_elem_of_In|done]. }
    simpl. by rewrite select_map. }
  destruct Hrows as [Hrows Hcols]. rewrite Hrows.
  split; [exact Hcols|]. split; [reflexivity|].
  split.
  { unfold df_empty in *. rewrite Hrows, Hcols.
    destruct (columns df); [done|].
    assert (r ∈ List.filter (row_selected df scope) (rows df)) as Hin.
    { apply list_elem_of_In, filter_In. split; [by apply list_elem_of_In|done]. }
    destruct (List.filter (row_selected df scope) (rows df)); [|done].
    by apply elem_of_nil in Hin. }
  split; [apply filter_sublist|].
  split.
  { apply Forall_forall. intros x Hx.
    apply list_elem_of_In, filter_In in Hx. apply row_selected_spec. exact (proj2 Hx). }
  split.
  { intros x Hx Hs. apply list_elem_of_In, filter_In.
    split; [by apply list_elem_of_In|by apply row_selected_spec]. }
  rewrite filter_shorter. split; intros (x & Hx & Hs); exists x; (split; [exact Hx|]).
  - rewrite <- row_selected_spec. by rewrite Hs.
  - rewrite <- row_selected_spec in Hs. by destruct (row_selected df scope x).
Qed.

(** C9: for every frame and every scope text, [filter_sessions] keeps the
    columns, returns rows that form a sub-sequence of the input's rows, and
    returns a non-empty frame whenever the input is not empty. *)
Theorem filter_sessions_subset df scope :
  columns (filter_sessions df scope) = columns df /\
  sublist (rows (filter_sessions df scope)) (rows df) /\
  (df_empty df = false -> df_empty (filter_sessions df scope) = false).
Proof.
  rewrite filter_sessions_unfold.
  destruct (df_empty df || String.eqb scope "ALL") eqn:Hgate; [done|].
  destruct (existsb (row_selected df scope) (rows df)) eqn:Hex; [|done].
  simpl. rewrite select_map.
  split; [reflexivity|]. split; [apply filter_sublist|].
  intros Hne. unfold df_empty in *. simpl. rewrite select_map.
  destruct (columns df); [done|].
  apply existsb_exists in Hex as (r & Hr & Hsel).
  assert (In r (List.filter (row_selected df scope) (rows df))) as Hin.
  { apply filter_In. done. }
  destruct (List.filter (row_selected df scope) (rows df)); [|done].
  destruct Hin.
Qed.

(** *** main: the loop over the target sessions *)

Lemma for_each_app {A} (xs ys : list A) (body : A -> M unit) w :
  for_each (xs ++ ys) body w = (for_each xs body ;; for_each ys body) w.
Proof.
  revert w. induction xs as [|x xs IH]; intros w; [reflexivity|].
  simpl. rewrite !bind_run. destruct (body x w) as [[[]| |] w1]; try reflexivity.
  rewrite IH. reflexivity.
Qed.

(** C10: a target row whose session key cannot be had as an integer (the
    lookup [r[sk]] or the conversion [int(...)] raises) is passed over:
    its turn of the loop returns normally and leaves the world as it was,
    so nothing is requested, written or printed for it, and the loop runs
    as if the row were not there. *)
Theorem session_without_key_skipped aggs y cs sk before r after w :
  session_key_of cs sk r = None ->
  session_body aggs y cs sk r w = (Ok tt, w) /\
  for_each (before ++ r :: after) (session_body aggs y cs sk) w =
  for_each (before ++ after) (session_body aggs y cs sk) w.
Proof.
  intros Hkey.
  assert (Hbody : forall w1, session_body aggs y cs sk r w1 = (Ok tt, w1)).
  { intros w1. unfold session_body. by rewrite Hkey. }
  split; [apply Hbody|].
  rewrite !for_each_app, !bind_run.
  destruct (for_each before _ w) as [[[]| |] w1]; try reflexivity.
  cbn [for_each]. rewrite bind_run, Hbody. reflexivity.
Qed.

(** *** CSVAgg *)

Lemma str_app_assoc (a b c : string) : (a +:+ b) +:+ c = a +:+ (b +:+ c).
Proof.
  induction a as [|x a IH]; [reflexivity|].
  change (String x ((a +:+ b) +:+ c) = String x (a +:+ b +:+ c)). by rewrite IH.
Qed.

Lemma str_app_nil_r (a : string) : a +:+ "" = a.
Proof.
  induction a as [|x a IH]; [reflexivity|].
  change (String x (a +:+ "") = String x a). by rewrite IH.
Qed.

Lemma str_app_nonempty (a b : string) : a <> "" -> a +:+ b <> "".
Proof. destruct a; [done|]. discriminate. Qed.

Lemma csv_line_nonempty fields : csv_line fields <> "".
Proof. unfold csv_line. destruct (csv_record fields); discriminate. Qed.

Lemma first_byte_empty (data : string) :
  String.eqb (substring 0 1 data) "" = String.eqb data "".
Proof. destruct data; reflexivity. Qed.

Lemma node_at_file w p data :
  node_at w p = Some (File data) -> p <> [] /\ fs w !! p = Some (File data).
Proof. destruct p; [discriminate|]. simpl. by split. Qed.

Lemma node_at_none w p : node_at w p = None -> p <> [] /\ fs w !! p = None.
Proof. destruct p; [discriminate|]. simpl. by split. Qed.

Lemma node_at_put w p data q :
  q <> [] -> node_at (put w p data) q = if decide (p = q) then Some (File data) else node_at w q.
Proof.
  intros Hq. destruct q; [done|]. simpl. apply lookup_insert.
Qed.

Lemma put_put w p a b : put (put w p a) p b = put w p b.
Proof. unfold put. simpl. by rewrite insert_insert_eq. Qed.

Lemma put_same w p data : fs w !! p = Some (File data) -> put w p data = w.
Proof. intros H. destruct w. unfold put. simpl in *. by rewrite insert_id. Qed.

Lemma CSVAgg_has_header_file self w data :
  node_at w (agg_path self) = Some (File data) ->
  CSVAgg_has_header self w = (Ok (negb (String.eqb data "")), w).
Proof.
  intros H. unfold CSVAgg_has_header, try_except_cls.
  rewrite bind_run. unfold read_bytes. rewrite H. simpl.
  by rewrite first_byte_empty.
Qed.

(** Appending nothing: [None] or an empty frame leaves the world as it is. *)
Lemma CSVAgg_append_nothing self w :
  CSVAgg_append self None w = (Ok tt, w) /\
  (forall df, df_empty df = true -> CSVAgg_append self (Some df) w = (Ok tt, w)).
Proof.
  split; [reflexivity|]. intros df He. unfold CSVAgg_append. by rewrite He.
Qed.

(** Appending to a destination that is there: the header goes in exactly
    when the file holds no byte. *)
Lemma CSVAgg_append_existing self w old df :
  df_empty df = false ->
  node_at w (agg_path self) = Some (File old) ->
  CSVAgg_append self (Some df) w =
  (Ok tt, put w (agg_path self)
            (old +:+ (if String.eqb old "" then header_text df else "") +:+ rows_text df)).
Proof.
  intros Hne Hfile. unfold CSVAgg_append. rewrite Hne.
  rewrite bind_run. unfold path_exists. rewrite Hfile.
  rewrite bool_decide_eq_true_2 by eauto. cbn [negb].
  run. rewrite (CSVAgg_has_header_file self w old Hfile).
  unfold to_csv, append_text. rewrite bind_run. unfold open_write. rewrite Hfile.
  unfold set_fs, put. cbn [default]. destruct (String.eqb old ""); reflexivity.
Qed.

(** Appending to a destination that is not there yet, in a directory that
    is: the file is made and gets the header and the rows. *)
Lemma CSVAgg_append_fresh self w df :
  df_empty df = false ->
  node_at w (agg_path self) = None ->
  node_at w (parent (agg_path self)) = Some Dir ->
  CSVAgg_append self (Some df) w =
  (Ok tt, put w (agg_path self) (header_text df +:+ rows_text df)).
Proof.
  intros Hne Hnone Hdir.
  destruct (node_at_none _ _ Hnone) as [Hp _].
  unfold CSVAgg_append. rewrite Hne.
  rewrite bind_run. unfold path_exists. rewrite Hnone.
  rewrite bool_decide_eq_false_2 by (intros [? ?]; discriminate). cbn [negb].
  rewrite bind_run. unfold write_text. rewrite bind_run.
  unfold open_write at 1. rewrite Hnone, Hdir.
  unfold set_fs at 1.
  change (mkWorld (net w) (sent w) (trace w) (<[agg_path self:=File ""]> (fs w)) (utc_year w))
    with (put w (agg_path self) "").
  assert (Hfile : node_at (put w (agg_path self) "") (agg_path self) = Some (File "")).
  { rewrite node_at_put by done. by rewrite decide_True. }
  rewrite bind_run, (CSVAgg_has_header_file self _ "" Hfile).
  unfold to_csv, append_text. rewrite bind_run. unfold open_write. rewrite Hfile.
  unfold set_fs. cbn [default negb String.eqb].
  change (mkWorld _ _ _ _ _) with
    (put (put w (agg_path self) "") (agg_path self) ("" +:+ header_text df +:+ rows_text df)).
  rewrite put_put. reflexivity.
Qed.

Lemma node_at_nonroot w p : p <> [] -> node_at w p = fs w !! p.
Proof. by destruct p. Qed.

Lemma mkdir_from_dir todo made w w' :
  node_at w made = Some Dir ->
  mkdir_from made todo w = (Ok tt, w') ->
  node_at w' (made ++ todo) = Some Dir.
Proof.
  revert made w. induction todo as [|c todo IH]; intros made w Hmade Hrun.
  - simpl in Hrun. injection Hrun as <-. by rewrite app_nil_r.
  - cbn [mkdir_from] in Hrun.
    replace (made ++ c :: todo) with ((made ++ [c]) ++ todo) by by rewrite <- app_assoc.
    destruct (node_at w (made ++ [c])) as [[d|]|] eqn:Hp.
    + discriminate.
    + by apply (IH _ w).
    + rewrite bind_run in Hrun. unfold set_fs in Hrun.
      refine (IH _ _ _ Hrun).
      rewrite node_at_nonroot by (by destruct made). simpl. apply lookup_insert_eq.
Qed.

Lemma mkdir_from_elsewhere todo made w w' q :
  mkdir_from made todo w = (Ok tt, w') ->
  (length (made ++ todo) < length q)%nat ->
  node_at w' q = node_at w q.
Proof.
  revert made w. induction todo as [|c todo IH]; intros made w Hrun Hlen.
  - simpl in Hrun. by injection Hrun as <-.
  - cbn [mkdir_from] in Hrun.
    assert (Hlen' : (length ((made ++ [c]) ++ todo) < length q)%nat).
    { by rewrite <- app_assoc. }
    destruct (node_at w (made ++ [c])) as [[d|]|] eqn:Hp.
    + discriminate.
    + exact (IH _ _ Hrun Hlen').
    + rewrite bind_run in Hrun. unfold set_fs in Hrun.
      rewrite (IH _ _ Hrun Hlen').
      assert (q <> []) by (destruct q; simpl in Hlen; [lia|done]).
      rewrite !node_at_nonroot by done. simpl.
      apply lookup_insert_ne. intros <-.
      rewrite !length_app in Hlen'. lia.
Qed.

Lemma parent_shorter (p : Path) : p <> [] -> (length (parent p) < length p)%nat.
Proof.
  intros Hp. unfold parent.
  rewrite (app_removelast_last "" Hp) at 2. rewrite length_app. simpl. lia.
Qed.

(** In overwrite mode a constructed aggregator starts from a destination
    that is not there, in a directory that is. *)
Lemma CSVAgg_init_fresh path w0 self w :
  OVERWRITE cfg = true ->
  CSVAgg_init path w0 = (Ok self, w) ->
  agg_path self = path /\
  node_at w path = None /\
  node_at w (parent path) = Some Dir.
Proof.
  intros Hover. unfold CSVAgg_init. rewrite Hover.
  rewrite bind_run. unfold path_exists.
  assert (Hmk : forall w1, node_at w1 path = None ->
            (mkdir (parent path) ;; mret (mkCSVAgg path)) w1 = (Ok self, w) ->
            agg_path self = path /\ node_at w path = None
            /\ node_at w (parent path) = Some Dir).
  { intros w1 Hnone. rewrite bind_run.
    destruct (mkdir (parent path) w1) as [[[]| |] w2] eqn:Hrun; try discriminate.
    cbn [mret M_ret]. intros [= <- <-].
    destruct (node_at_none _ _ Hnone) as [Hp _].
    split; [reflexivity|]. split.
    - rewrite <- Hnone. eapply mkdir_from_elsewhere; [exact Hrun|].
      simpl. by apply parent_shorter.
    - by apply (mkdir_from_dir (parent path) [] w1). }
  destruct (node_at w0 path) as [[d|]|] eqn:Hp.
  - rewrite bool_decide_eq_true_2 by eauto. cbn [andb].
    rewrite bind_run. unfold unlink. rewrite Hp. unfold set_fs.
    apply Hmk. destruct (node_at_file _ _ _ Hp) as [Hne _].
    rewrite node_at_nonroot by done. simpl. apply lookup_delete_eq.
  - rewrite bool_decide_eq_true_2 by eauto. cbn [andb].
    rewrite bind_run. unfold unlink. rewrite Hp. discriminate.
  - rewrite bool_decide_eq_false_2 by (intros [? ?]; discriminate). cbn [andb].
    rewrite bind_run. cbn [mret M_ret]. by apply Hmk.
Qed.

Lemma concat_cons (x : string) (xs : list string) :
  String.concat "" (x :: xs) = x +:+ String.concat "" xs.
Proof. destruct xs; [by rewrite str_app_nil_r|reflexivity]. Qed.

Lemma appended_rows_cons df dfs :
  appended_rows (df :: dfs) =
  if df_empty df then appended_rows dfs else rows_text df +:+ appended_rows dfs.
Proof.
  unfold appended_rows. cbn [List.filter].
  destruct (df_empty df); cbn [negb]; [reflexivity|].
  cbn [map]. apply concat_cons.
Qed.

(** Appends to a destination that already holds bytes only add data lines. *)
Lemma appends_existing self dfs w old :
  old <> "" ->
  node_at w (agg_path self) = Some (File old) ->
  for_each dfs (fun df => CSVAgg_append self (Some df)) w =
  (Ok tt, put w (agg_path self) (old +:+ appended_rows dfs)).
Proof.
  revert w old. induction dfs as [|df dfs IH]; intros w old Hold Hfile.
  - destruct (node_at_file _ _ _ Hfile) as [_ Hfs].
    cbn [for_each]. unfold appended_rows. cbn [List.filter map String.concat].
    rewrite str_app_nil_r, put_same by done. reflexivity.
  - destruct (node_at_file _ _ _ Hfile) as [Hp _].
    cbn [for_each]. rewrite bind_run, appended_rows_cons.
    destruct (df_empty df) eqn:He.
    + rewrite (proj2 (CSVAgg_append_nothing self w) df He). by apply IH.
    + rewrite (CSVAgg_append_existing self w old df He Hfile).
      assert (String.eqb old "" = false) as -> by (by apply String.eqb_neq).
      change (old +:+ "" +:+ rows_text df) with (old +:+ rows_text df).
      rewrite (IH _ (old +:+ rows_text df)).
      * by rewrite put_put, str_app_assoc.
      * by apply str_app_nonempty.
      * rewrite node_at_put by done. by rewrite decide_True.
Qed.

(** Appends to a destination that is not there: nothing happens until the
    first non-empty frame, which brings the header. *)
Lemma appends_fresh self dfs w cs :
  node_at w (agg_path self) = None ->
  node_at w (parent (agg_path self)) = Some Dir ->
  Forall (fun df => df_empty df = false -> columns df = cs) dfs ->
  for_each dfs (fun df => CSVAgg_append self (Some df)) w =
  (Ok tt,
   if existsb (fun df => negb (df_empty df)) dfs
   then put w (agg_path self) (csv_line cs +:+ appended_rows dfs)
   else w).
Proof.
  intros Hnone Hdir Hcols.
  induction dfs as [|df dfs IH]; [reflexivity|].
  destruct (node_at_none _ _ Hnone) as [Hp _].
  apply Forall_cons in Hcols as [Hdf Hcols].
  cbn [for_each existsb]. rewrite bind_run, appended_rows_cons.
  destruct (df_empty df) eqn:He; cbn [negb orb].
  - rewrite (proj2 (CSVAgg_append_nothing self w) df He). by apply IH.
  - rewrite (CSVAgg_append_fresh self w df He Hnone Hdir).
    unfold header_text. rewrite (Hdf eq_refl).
    rewrite (appends_existing self dfs _ (csv_line cs +:+ rows_text df)).
    + by rewrite put_put, str_app_assoc.
    + apply str_app_nonempty, csv_line_nonempty.
    + rewrite node_at_put by done. by rewrite decide_True.
Qed.

(** C8: for an aggregator constructed in overwrite mode on [path], (1)
    appending [None] or an empty frame changes nothing in any world: no file
    is made, no header written; (2) the destination is not there after
    construction,
    and appending frames whose non-empty members have the columns [cs]
    leaves it holding one header line, brought by the first non-empty
    frame, then the data lines of the non-empty frames in the order they
    were appended; (3) whether an append writes the header depends only on
    whether the destination file holds a byte. *)
Theorem CSVAgg_header_once path w0 self w cs dfs :
  OVERWRITE cfg = true ->
  CSVAgg_init path w0 = (Ok self, w) ->
  Forall (fun df => df_empty df = false -> columns df = cs) dfs ->
  (forall w1,
     CSVAgg_append self None w1 = (Ok tt, w1) /\
     forall df, df_empty df = true -> CSVAgg_append self (Some df) w1 = (Ok tt, w1)) /\
  agg_path self = path /\
  node_at w path = None /\
  for_each dfs (fun df => CSVAgg_append self (Some df)) w =
  (Ok tt,
   if existsb (fun df => negb (df_empty df)) dfs
   then put w path (csv_line cs +:+ appended_rows dfs)
   else w) /\
  (forall w1 old df,
     df_empty df = false ->
     node_at w1 path = Some (File old) ->
     CSVAgg_append self (Some df) w1 =
     (Ok tt, put w1 path
               (old +:+ (if String.eqb old "" then header_text df else "")
                    +:+ rows_text df))).
Proof.
  intros Hover Hinit Hcols.
  destruct (CSVAgg_init_fresh _ _ _ _ Hover Hinit) as (Hpath & Hnone & Hdir).
  rewrite <- Hpath in *.
  split; [intros w1; apply CSVAgg_append_nothing|].
  split; [reflexivity|].
  split; [exact Hnone|].
  split; [by apply appends_fresh|].
  intros w1 old df. apply CSVAgg_append_existing.
Qed.

(** *** More on fetch_csv *)

(** Whatever the replies, the loop either returns at some attempt or runs
    through all of them and raises. *)
Lemma fetch_loop_effect endpoint url params attempts err w :
  (exists pre a post df,
     attempts = pre ++ a :: post /\
     fetch_loop endpoint url params attempts err w =
     (Ok df, advance w (length pre + 1)
               (retry_events (mkRequest url params (TIMEOUT cfg)) pre
                  ++ [Get (mkRequest url params (TIMEOUT cfg))]))) \/
  (exists last,
     fetch_loop endpoint url params attempts err w =
     (Raise (RuntimeError endpoint params last),
      advance w (length attempts)
        (retry_events (mkRequest url params (TIMEOUT cfg)) attempts))).
Proof.
  revert err w. induction attempts as [|a attempts IH]; intros err w.
  - right. exists err. cbn [fetch_loop]. unfold raise. by rewrite advance_0.
  - cbn [fetch_loop]. rewrite bind_run, attempt_or_error_run.
    destruct (reply_outcome _) as [df|e].
    + left. exists [], a, attempts, df. split; reflexivity.
    + rewrite bind_run, sleep_run, advance_advance.
      destruct (IH (Some e) (advance w (1 + 0)
                  ([Get (mkRequest url params (TIMEOUT cfg))]
                     ++ [Sleep (BACKOFF cfg ^ Z.of_nat a)])))
        as [(pre & a' & post & df & -> & Hrun)|(last & Hrun)]; rewrite Hrun.
      * left. exists (a :: pre), a', post, df. split; [reflexivity|].
        rewrite advance_advance. reflexivity.
      * right. exists last. rewrite advance_advance. reflexivity.
Qed.

Lemma seq_prefix (pre post : list nat) a n :
  seq 0 n = pre ++ a :: post -> pre = seq 0 (length pre) /\ (length pre < n)%nat.
Proof.
  intros H.
  assert (Hlen : (length pre < n)%nat).
  { apply (f_equal length) in H. rewrite length_seq, length_app in H. simpl in H. lia. }
  split; [|exact Hlen].
  apply (f_equal (take (length pre))) in H.
  rewrite take_seq, take_app_length in H.
  rewrite Nat.min_l in H by lia. by symmetry.
Qed.

(** X1: every call of [fetch_csv] sends between one and [RETRIES]
    requests, all of them the same request with [csv=true], sleeps
    [BACKOFF ** a] after failed attempt [a], changes nothing else in the
    world, and ends in one of two ways: it returns a frame at an attempt
    within the budget, or it raises the [RuntimeError] naming its endpoint
    and parameters after exactly [RETRIES] requests. *)
Theorem fetch_csv_effect endpoint params w :
  exists n,
    (exists df,
       (n < RETRIES cfg)%nat /\
       fetch_csv endpoint params w =
       (Ok df, advance w (n + 1)
                 (retry_events (request_of endpoint params) (seq 0 n)
                    ++ [Get (request_of endpoint params)]))) \/
    (exists last,
       n = RETRIES cfg /\
       fetch_csv endpoint params w =
       (Raise (RuntimeError endpoint (<["csv" := PStr "true"]> params) last),
        advance w n (retry_events (request_of endpoint params) (seq 0 n)))).
Proof.
  unfold fetch_csv.
  destruct (fetch_loop_effect endpoint (BASE cfg +:+ "/" +:+ endpoint)
              (<["csv" := PStr "true"]> params) (seq 0 (RETRIES cfg)) None w)
    as [(pre & a & post & df & Hseq & Hrun)|(last & Hrun)].
  - apply seq_prefix in Hseq as [Hpre Hlt].
    exists (length pre). left. exists df. split; [exact Hlt|].
    rewrite Hrun. unfold request_of. by rewrite <- Hpre.
  - exists (RETRIES cfg). right. exists last. split; [reflexivity|].
    rewrite Hrun, length_seq. reflexivity.
Qed.

(** The effect of a call, for the callers: some requests within the
    budget, some requests and sleeps recorded, nothing else. *)
Lemma is_net_event_retry rq attempts :
  forallb is_net_event (retry_events rq attempts) = true.
Proof. induction attempts as [|a attempts IH]; [reflexivity|exact IH]. Qed.

Lemma fetch_csv_advance endpoint params w :
  exists k evs,
    (k <= RETRIES cfg)%nat /\
    forallb is_net_event evs = true /\
    (fetch_csv endpoint params w).2 = advance w k evs.
Proof.
  unfold fetch_csv.
  destruct (fetch_loop_effect endpoint (BASE cfg +:+ "/" +:+ endpoint)
              (<["csv" := PStr "true"]> params) (seq 0 (RETRIES cfg)) None w)
    as [(pre & a & post & df & Hseq & Hrun)|(last & Hrun)]; rewrite Hrun.
  - apply seq_prefix in Hseq as [_ Hlt].
    eexists _, _. split; [|split; [|reflexivity]]; [lia|].
    rewrite forallb_app, is_net_event_retry. reflexivity.
  - eexists _, _. split; [|split; [|reflexivity]].
    + by rewrite length_seq.
    + apply is_net_event_retry.
Qed.

Lemma lstrip_all_space s : lstrip s = "" <-> all_space s = true.
Proof.
  induction s as [|c s IH]; [done|].
  simpl. destruct (is_space c); simpl; [exact IH|]. split; discriminate.
Qed.

Lemma all_space_rev_app a b :
  all_space (String.rev_app a b) = all_space a && all_space b.
Proof.
  revert b. induction a as [|c a IH]; intros b; [reflexivity|].
  simpl. rewrite IH. simpl.
  destruct (is_space c), (all_space a), (all_space b); reflexivity.
Qed.

Lemma all_space_rev s : all_space (String.rev s) = all_space s.
Proof. unfold String.rev. rewrite all_space_rev_app. simpl. apply andb_true_r. Qed.

Lemma rev_app_empty a b : String.rev_app a b = "" -> a = "".
Proof.
  revert b. induction a as [|c a IH]; intros b H; [reflexivity|].
  simpl in H. pose proof (IH _ H) as Ha. subst a. discriminate.
Qed.

Lemma rev_empty s : String.rev s = "" -> s = "".
Proof. apply rev_app_empty. Qed.

Lemma lstrip_idem s : lstrip (lstrip s) = lstrip s.
Proof.
  induction s as [|c s IH]; [reflexivity|].
  simpl. destruct (is_space c) eqn:Hc; [exact IH|]. simpl. by rewrite Hc.
Qed.

(** The body test of [fetch_csv] passes exactly the bodies made of
    whitespace only. *)
Lemma blank_all_space data : blank data = all_space data.
Proof.
  unfold blank, strip, rstrip.
  destruct (all_space data) eqn:Hs.
  - apply lstrip_all_space in Hs. rewrite Hs. simpl. apply orb_true_r.
  - apply orb_false_iff. split.
    + destruct data; [discriminate|reflexivity].
    + apply String.eqb_neq. intros H. apply rev_empty in H.
      apply lstrip_all_space in H. rewrite all_space_rev in H.
      apply lstrip_all_space in H. rewrite lstrip_idem in H.
      apply lstrip_all_space in H. congruence.
Qed.

(** X2: a response without an HTTP error status whose body is nothing
    but whitespace gives the empty frame, without the parser being asked;
    this holds at the first attempt and after earlier attempts that
    failed. *)
Theorem fetch_csv_blank_body endpoint params w errs r :
  (length errs < RETRIES cfg)%nat ->
  (forall k e, errs !! k = Some e ->
     reply_outcome (net w (sent w + k) (request_of endpoint params)) = inr e) ->
  net w (sent w + length errs) (request_of endpoint params) = Replied r ->
  is_error_status (status_code r) = false ->
  all_space (content r) = true ->
  fetch_csv endpoint params w =
  (Ok empty_frame,
   advance w (length errs + 1)
     (retry_events (request_of endpoint params) (seq 0 (length errs))
        ++ [Get (request_of endpoint params)])).
Proof.
  intros Hlt Hfail Hr Hok Hblank.
  apply fetch_csv_return; [exact Hlt|exact Hfail|].
  rewrite Hr. simpl. rewrite Hok, blank_all_space, Hblank.
  destruct ((status_code r =? 204) || (status_code r =? 400))%Z; reflexivity.
Qed.

Lemma parse_failure_outcome rp e :
  parse_failure rp = Some e -> reply_outcome rp = inr e.
Proof.
  destruct rp as [r|e']; simpl; [|discriminate].
  destruct (is_error_status (status_code r)) eqn:He; [discriminate|].
  destruct (status_code r =? 204)%Z; [discriminate|].
  destruct (status_code r =? 400)%Z eqn:H400.
  { apply Z.eqb_eq in H400. unfold is_error_status in He. rewrite H400 in He. discriminate. }
  simpl. destruct (blank (content r)); [discriminate|].
  destruct (read_csv (content r)) as [[| | |]|]; try discriminate.
  by intros [= <-].
Qed.

(** X3: a body the parser refuses is never passed off as "no data": the
    attempt counts as failed and is retried, and when every attempt of the
    budget ends that way [fetch_csv] raises its [RuntimeError] with the
    parser's last error. *)
Theorem fetch_csv_parse_failure endpoint params w errs :
  length errs = RETRIES cfg ->
  (forall k e, errs !! k = Some e ->
     parse_failure (net w (sent w + k) (request_of endpoint params)) = Some e) ->
  fetch_csv endpoint params w =
  (Raise (RuntimeError endpoint (<["csv" := PStr "true"]> params) (last errs)),
   advance w (RETRIES cfg)
     (retry_events (request_of endpoint params) (seq 0 (RETRIES cfg)))).
Proof.
  intros Hlen Hfail. apply fetch_csv_raise; [exact Hlen|].
  intros k e Hk. by apply parse_failure_outcome, Hfail.
Qed.


(** *** More on available_years *)

Lemma probe_years_effect ys acc w :
  exists k evs,
    (k <= RETRIES cfg * length ys)%nat /\
    forallb is_net_event evs = true /\
    (probe_years ys acc w).2 = advance w k evs.
Proof.
  revert acc w. induction ys as [|y ys IH]; intros acc w.
  - exists 0%nat, []. split; [simpl; lia|]. split; [reflexivity|].
    simpl. by rewrite advance_0.
  - cbn [probe_years]. rewrite bind_run. unfold try_except. rewrite bind_run.
    destruct (fetch_csv_advance "sessions" {["year" := PInt y]} w)
      as (k1 & evs1 & Hk1 & Hev1 & Hw1).
    destruct (fetch_csv_outcome "sessions" {["year" := PInt y]} w)
      as [(df & w1 & Hf)|(last & w1 & Hf)];
      rewrite Hf in Hw1 |- *; simpl in Hw1; subst w1; cbn [mret M_ret].
    + destruct (IH (if negb (df_empty df) then acc ++ [y] else acc) (advance w k1 evs1))
        as (k & evs & Hk & Hev & Hw).
      exists (k1 + k)%nat, (evs1 ++ evs). rewrite Hw, advance_advance.
      split; [simpl; lia|]. split; [|reflexivity].
      by rewrite forallb_app, Hev1, Hev.
    + destruct (IH acc (advance w k1 evs1)) as (k & evs & Hk & Hev & Hw).
      exists (k1 + k)%nat, (evs1 ++ evs). rewrite Hw, advance_advance.
      split; [simpl; lia|]. split; [|reflexivity].
      by rewrite forallb_app, Hev1, Hev.
Qed.

(** X4: discovery only talks to the network: it returns a list of years
    in a world that differs from the one it started in by requests and
    sleeps alone (no file touched, nothing printed), the requests being at
    most [RETRIES] for each year of the range. *)
Theorem available_years_effect start_from end_to w :
  exists yrs k evs,
    available_years start_from end_to w = (Ok yrs, advance w k evs) /\
    (k <= RETRIES cfg * length (range start_from (end_year end_to w + 1)))%nat /\
    forallb is_net_event evs = true.
Proof.
  unfold available_years. rewrite bind_run, end_or_now_run.
  destruct (probe_years_discovers (range start_from (end_year end_to w + 1)) [] w)
    as (yrs & w' & Hrun & _).
  destruct (probe_years_effect (range start_from (end_year end_to w + 1)) [] w)
    as (k & evs & Hk & Hev & Hw).
  rewrite Hrun in Hw |- *. simpl in Hw. subst w'.
  by exists yrs, k, evs.
Qed.

Lemma sublist_Forall {A} (P : A -> Prop) (l1 l2 : list A) :
  sublist l1 l2 -> Forall P l2 -> Forall P l1.
Proof.
  induction 1 as [|x l1 l2 _ IH|x l1 l2 _ IH]; intros HF.
  - constructor.
  - apply Forall_cons in HF as [Hx HF]. constructor; [exact Hx|by apply IH].
  - apply Forall_cons in HF as [_ HF]. by apply IH.
Qed.

Lemma sublist_StronglySorted {A} (R : A -> A -> Prop) (l1 l2 : list A) :
  sublist l1 l2 -> StronglySorted R l2 -> StronglySorted R l1.
Proof.
  induction 1 as [|x l1 l2 Hsub IH|x l1 l2 _ IH]; intros HS.
  - constructor.
  - apply StronglySorted_cons in HS as [Hx HS].
    constructor; [by apply IH|]. by eapply sublist_Forall.
  - apply StronglySorted_cons in HS as [_ HS]. by apply IH.
Qed.

Lemma seqZ_StronglySorted m n : StronglySorted Z.lt (seqZ m n).
Proof.
  unfold seqZ. generalize (Z.to_nat n). intros k.
  assert (H : forall i, StronglySorted Z.lt ((fun j : nat => Z.of_nat j + m) <$> seq i k)).
  { induction k as [|k IH]; intros i; simpl; constructor; [apply IH|].
    apply Forall_forall. intros z Hz.
    apply list_elem_of_fmap in Hz as (j & -> & Hj).
    apply elem_of_seq in Hj. lia. }
  apply H.
Qed.

(** X5: the years returned come in strictly ascending order, without
    repetition, and lie between [start_from] and the end year. *)
Theorem available_years_ascending start_from end_to w yrs w' :
  available_years start_from end_to w = (Ok yrs, w') ->
  StronglySorted Z.lt yrs /\
  Forall (fun y => start_from <= y <= end_year end_to w) yrs.
Proof.
  unfold available_years. rewrite bind_run, end_or_now_run.
  destruct (probe_years_discovers (range start_from (end_year end_to w + 1)) [] w)
    as (yrs0 & w0 & Hrun & Hd).
  rewrite Hrun. intros [= <- <-].
  apply discovers_sublist in Hd. split.
  - eapply sublist_StronglySorted; [exact Hd|]. apply seqZ_StronglySorted.
  - eapply sublist_Forall; [exact Hd|].
    apply Forall_forall. intros y Hy. unfold range in Hy.
    apply elem_of_seqZ in Hy. lia.
Qed.

(** X6: over an empty range (the end year before [start_from]) discovery
    returns no year and sends no request. *)
Theorem available_years_empty_range start_from end_to w :
  end_year end_to w < start_from ->
  available_years start_from end_to w = (Ok [], w).
Proof.
  intros Hlt. unfold available_years. rewrite bind_run, end_or_now_run.
  unfold range. rewrite seqZ_nil by lia. reflexivity.
Qed.

(** X7: an end year that is left out and an end year of 0 both stand for
    the current year. *)
Theorem available_years_default_end start_from w :
  available_years start_from None w =
    available_years start_from (Some (utc_year w)) w /\
  available_years start_from (Some 0) w =
    available_years start_from (Some (utc_year w)) w.
Proof.
  unfold available_years. rewrite !bind_run, !end_or_now_run.
  simpl. destruct (utc_year w =? 0)%Z eqn:H0; split; reflexivity.
Qed.


(** *** More on filter_sessions *)

Lemma filter_filter {A} (f : A -> bool) (xs : list A) :
  List.filter f (List.filter f xs) = List.filter f xs.
Proof.
  induction xs as [|x xs IH]; [reflexivity|].
  simpl. destruct (f x) eqn:Hx; simpl; [rewrite Hx; by f_equal|exact IH].
Qed.

Lemma filter_sublist_impl {A} (f g : A -> bool) (xs : list A) :
  (forall x, f x = true -> g x = true) ->
  sublist (List.filter f xs) (List.filter g xs).
Proof.
  intros Hfg. induction xs as [|x xs IH]; simpl; [constructor|].
  destruct (f x) eqn:Hf.
  - rewrite (Hfg x Hf). by constructor.
  - destruct (g x); [by constructor|exact IH].
Qed.

Lemma existsb_filter_self {A} (f : A -> bool) (xs : list A) :
  existsb f (List.filter f xs) = existsb f xs.
Proof.
  induction xs as [|x xs IH]; [reflexivity|].
  simpl. destruct (f x) eqn:Hx; simpl; [by rewrite Hx|exact IH].
Qed.

(** X8: filtering twice with the same scope is filtering once. *)
Theorem filter_sessions_idempotent df scope :
  filter_sessions (filter_sessions df scope) scope = filter_sessions df scope.
Proof.
  rewrite (filter_sessions_unfold df scope).
  destruct (df_empty df || String.eqb scope "ALL") eqn:Hgate.
  { rewrite filter_sessions_unfold. by rewrite Hgate. }
  destruct (existsb (row_selected df scope) (rows df)) eqn:Hex.
  2:{ rewrite filter_sessions_unfold. by rewrite Hgate, Hex. }
  apply orb_false_iff in Hgate as [Hne Hall].
  rewrite filter_sessions_unfold. rewrite Hall, orb_false_r.
  change (row_selected (loc df (map (row_selected df scope) (rows df))) scope)
    with (row_selected df scope).
  cbn [rows loc]. rewrite select_map, existsb_filter_self, Hex.
  assert (df_empty (loc df (map (row_selected df scope) (rows df))) = false) as ->.
  { unfold df_empty in *. cbn [rows columns loc]. rewrite select_map.
    destruct (columns df); [done|].
    destruct (List.filter (row_selected df scope) (rows df)) eqn:Hf; [|done].
    rewrite <- existsb_filter_self, Hf in Hex. discriminate. }
  unfold loc. cbn [rows columns columns_nodup].
  rewrite !select_map, filter_filter. reflexivity.
Qed.

Lemma scope_selects_other scope name type :
  scope <> "RACE" -> scope <> "RACE_SPRINT" -> scope_selects scope name type = false.
Proof.
  intros H1 H2. unfold scope_selects, str_in. cbn [existsb].
  apply String.eqb_neq in H1, H2. by rewrite H1, H2.
Qed.

(** X9: the scope is compared as it is written: any scope text other
    than "RACE" and "RACE_SPRINT" (so "race", "Sprint", the empty text)
    selects nothing, and the frame comes back whole. *)
Theorem filter_sessions_other_scope df scope :
  scope <> "RACE" -> scope <> "RACE_SPRINT" ->
  filter_sessions df scope = df.
Proof.
  intros H1 H2. rewrite filter_sessions_unfold.
  destruct (df_empty df || String.eqb scope "ALL"); [reflexivity|].
  destruct (existsb (row_selected df scope) (rows df)) eqn:Hex; [|reflexivity].
  apply existsb_exists in Hex as (r & _ & Hsel).
  unfold row_selected in Hsel. by rewrite scope_selects_other in Hsel.
Qed.

Lemma scope_selects_no_columns scope : scope_selects scope None None = false.
Proof.
  unfold scope_selects. cbn [from_option orb].
  by rewrite !andb_false_r.
Qed.

(** X10: a frame with neither a session_name nor a session_type column
    (under any spelling of the labels) comes back whole under every
    scope. *)
Theorem filter_sessions_no_columns df scope :
  find_column "session_name" (columns df) = None ->
  find_column "session_type" (columns df) = None ->
  filter_sessions df scope = df.
Proof.
  intros Hn Ht. rewrite filter_sessions_unfold.
  destruct (df_empty df || String.eqb scope "ALL"); [reflexivity|].
  destruct (existsb (row_selected df scope) (rows df)) eqn:Hex; [|reflexivity].
  apply existsb_exists in Hex as (r & _ & Hsel).
  unfold row_selected, row_text in Hsel. rewrite Hn, Ht in Hsel.
  cbn [mbind option_bind] in Hsel. by rewrite scope_selects_no_columns in Hsel.
Qed.

Lemma scope_selects_RACE_SPRINT name type :
  scope_selects "RACE" name type = true ->
  scope_selects "RACE_SPRINT" name type = true.
Proof.
  unfold scope_selects, str_in. cbn [existsb String.eqb Ascii.eqb Bool.eqb andb orb].
  intros H. apply orb_true_iff in H as [H|H]; [|discriminate].
  by rewrite H.
Qed.

(** X11: when some row of a non-empty frame is a race, the rows kept
    under RACE are among the rows kept under RACE_SPRINT, in the same
    order.  (Without a race row RACE returns the whole frame and need not
    be the smaller of the two.) *)
Theorem filter_sessions_race_within_sprint df :
  df_empty df = false ->
  (exists r, r ∈ rows df /\ row_selected df "RACE" r = true) ->
  sublist (rows (filter_sessions df "RACE")) (rows (filter_sessions df "RACE_SPRINT")).
Proof.
  intros Hne (r & Hr & Hsel).
  assert (Himp : forall x, row_selected df "RACE" x = true ->
                           row_selected df "RACE_SPRINT" x = true).
  { intros x. unfold row_selected. apply scope_selects_RACE_SPRINT. }
  apply list_elem_of_In in Hr.
  rewrite !filter_sessions_unfold, Hne. cbn [String.eqb Ascii.eqb Bool.eqb orb].
  assert (existsb (row_selected df "RACE") (rows df) = true) as ->.
  { apply existsb_exists. by exists r. }
  assert (existsb (row_selected df "RACE_SPRINT") (rows df) = true) as ->.
  { apply existsb_exists. exists r. split; [done|by apply Himp]. }
  cbn [rows loc]. rewrite !select_map. by apply filter_sublist_impl.
Qed.

(** X12: the dictionary of lower-cased labels answers with labels of the
    frame only, each under its own lower-case form, and it has an entry for
    the lower-case form of every label. *)
Theorem lower_index_labels labels :
  (forall k c, lower_index labels !! k = Some c -> c ∈ labels /\ lower c = k) /\
  (forall c, c ∈ labels ->
     exists c', lower_index labels !! lower c = Some c' /\ lower c' = lower c).
Proof.
  induction labels as [|x labels [IH1 IH2]] using rev_ind.
  - split.
    { intros k c H.
      change (lower_index []) with (∅ : gmap string string) in H.
      by rewrite lookup_empty in H. }
    intros c Hc. by apply elem_of_nil in Hc.
  - rewrite lower_index_snoc. split.
    + intros k c H. destruct (decide (lower x = k)) as [<-|Hne].
      * rewrite lookup_insert_eq in H. injection H as <-.
        split; [|reflexivity]. apply elem_of_app. right. by apply list_elem_of_singleton.
      * rewrite lookup_insert_ne in H by done.
        destruct (IH1 k c H) as [Hin Hlow]. split; [|exact Hlow].
        apply elem_of_app. by left.
    + intros c Hc. destruct (decide (lower x = lower c)) as [Heq|Hne].
      * exists x. by rewrite <- Heq, lookup_insert_eq.
      * rewrite lookup_insert_ne by done.
        apply elem_of_app in Hc as [Hc|Hc]; [by apply IH2|].
        apply list_elem_of_singleton in Hc. by subst.
Qed.


(** *** More on mkdir and CSVAgg *)

Lemma same_but_fs_refl w : same_but_fs w w.
Proof. by repeat split. Qed.


Lemma node_at_insert_other w p x q n :
  node_at w p = None ->
  node_at w q = Some n ->
  node_at (mkWorld (net w) (sent w) (trace w) (<[p := x]> (fs w)) (utc_year w)) q = Some n.
Proof.
  intros Hp Hq. destruct q as [|c q]; [exact Hq|].
  simpl in *. rewrite lookup_insert_ne; [exact Hq|].
  intros ->. simpl in Hp. congruence.
Qed.

(** Making directories removes and replaces nothing, whether it succeeds
    or not, and touches the file system only. *)
Lemma mkdir_from_keeps todo made w res w' :
  mkdir_from made todo w = (res, w') ->
  same_but_fs w w' /\
  (exists e, res = Ok tt \/ res = Raise e) /\
  forall q n, node_at w q = Some n -> node_at w' q = Some n.
Proof.
  revert made w. induction todo as [|c todo IH]; intros made w Hrun.
  - simpl in Hrun. injection Hrun as <- <-.
    split; [apply same_but_fs_refl|]. split; [exists (LibError ""); by left|done].
  - cbn [mkdir_from] in Hrun.
    destruct (node_at w (made ++ [c])) as [[d|]|] eqn:Hp.
    + injection Hrun as <- <-.
      split; [apply same_but_fs_refl|]. split; [eexists; by right|done].
    + exact (IH _ _ Hrun).
    + rewrite bind_run in Hrun. unfold set_fs in Hrun.
      destruct (IH _ _ Hrun) as (Hsame & Hres & Hkeep).
      split; [exact Hsame|]. split; [exact Hres|].
      intros q n Hq. apply Hkeep. by apply node_at_insert_other.
Qed.

Lemma mkdir_from_made todo made w :
  (forall k, (1 <= k <= length todo)%nat ->
     node_at w (made ++ take k todo) = Some Dir) ->
  mkdir_from made todo w = (Ok tt, w).
Proof.
  revert made. induction todo as [|c todo IH]; intros made Hall; [reflexivity|].
  cbn [mkdir_from].
  pose proof (Hall 1%nat ltac:(simpl; lia)) as H1. cbn [take] in H1.
  rewrite take_0 in H1. rewrite H1.
  apply IH. intros k Hk. rewrite <- app_assoc.
  apply (Hall (S k)). simpl. lia.
Qed.

Lemma mkdir_from_prefixes todo made w w' :
  node_at w made = Some Dir ->
  mkdir_from made todo w = (Ok tt, w') ->
  forall k, (k <= length todo)%nat -> node_at w' (made ++ take k todo) = Some Dir.
Proof.
  revert made w. induction todo as [|c todo IH]; intros made w Hmade Hrun k Hk.
  - simpl in Hrun. injection Hrun as <-. rewrite take_nil, app_nil_r. exact Hmade.
  - destruct k as [|k].
    + rewrite take_0, app_nil_r.
      by apply (mkdir_from_keeps _ _ _ _ _ Hrun).
    + cbn [mkdir_from] in Hrun. cbn [take].
      replace (made ++ c :: take k todo) with ((made ++ [c]) ++ take k todo)
        by by rewrite <- app_assoc.
      simpl in Hk.
      destruct (node_at w (made ++ [c])) as [[d|]|] eqn:Hp.
      * discriminate.
      * apply (IH _ w); [exact Hp|exact Hrun|lia].
      * rewrite bind_run in Hrun. unfold set_fs in Hrun.
        refine (IH _ _ _ Hrun k ltac:(lia)).
        rewrite node_at_nonroot by (by destruct made). simpl. apply lookup_insert_eq.
Qed.

(** X13: [mkdir] creates what is missing and nothing more: when it
    succeeds the path and all its ancestors are directories, every file and
    directory that was there is still there, nothing but the file system
    has changed, and running it again changes nothing. *)
Theorem mkdir_idempotent p w w' :
  mkdir p w = (Ok tt, w') ->
  node_at w' p = Some Dir /\
  (forall k, node_at w' (take k p) = Some Dir) /\
  (forall q n, node_at w q = Some n -> node_at w' q = Some n) /\
  same_but_fs w w' /\
  mkdir p w' = (Ok tt, w').
Proof.
  unfold mkdir. intros Hrun.
  assert (Hpre : forall k, (k <= length p)%nat -> node_at w' (take k p) = Some Dir).
  { intros k Hk. by apply (mkdir_from_prefixes p [] w w'). }
  destruct (mkdir_from_keeps _ _ _ _ _ Hrun) as (Hsame & _ & Hkeep).
  split; [|split; [|split; [|split]]].
  - specialize (Hpre (length p) ltac:(lia)). by rewrite firstn_all in Hpre.
  - intros k. destruct (decide (k <= length p)%nat) as [Hk|Hk]; [by apply Hpre|].
    rewrite take_ge by lia.
    specialize (Hpre (length p) ltac:(lia)). by rewrite firstn_all in Hpre.
  - exact Hkeep.
  - exact Hsame.
  - apply mkdir_from_made. intros k Hk. simpl. apply Hpre. lia.
Qed.

(** The first non-empty frame of a list. *)
Lemma find_nonempty_cons df dfs :
  List.find (fun d => negb (df_empty d)) (df :: dfs) =
  if df_empty df then List.find (fun d => negb (df_empty d)) dfs else Some df.
Proof. simpl. by destruct (df_empty df). Qed.

(** X14: the header of a destination is that of the first non-empty
    frame appended to it; the frames appended later contribute their data
    lines whatever their columns are, and their labels are never written. *)
Theorem CSVAgg_first_header self dfs w :
  node_at w (agg_path self) = None ->
  node_at w (parent (agg_path self)) = Some Dir ->
  for_each dfs (fun df => CSVAgg_append self (Some df)) w =
  (Ok tt,
   match List.find (fun d => negb (df_empty d)) dfs with
   | Some first => put w (agg_path self) (header_text first +:+ appended_rows dfs)
   | None => w
   end).
Proof.
  intros Hnone Hdir.
  induction dfs as [|df dfs IH]; [reflexivity|].
  destruct (node_at_none _ _ Hnone) as [Hp _].
  cbn [for_each]. rewrite bind_run, appended_rows_cons, find_nonempty_cons.
  destruct (df_empty df) eqn:He.
  - rewrite (proj2 (CSVAgg_append_nothing self w) df He). exact IH.
  - rewrite (CSVAgg_append_fresh self w df He Hnone Hdir).
    rewrite (appends_existing self dfs _ (header_text df +:+ rows_text df)).
    + by rewrite put_put, str_app_assoc.
    + apply str_app_nonempty, csv_line_nonempty.
    + rewrite node_at_put by done. by rewrite decide_True.
Qed.


(** X15: with overwrite off, construction keeps what an earlier run left
    at the destination, and the frames appended afterwards add their data
    lines after it, with no second header. *)
Theorem CSVAgg_keeps_without_overwrite path w0 self w old dfs :
  OVERWRITE cfg = false ->
  node_at w0 path = Some (File old) ->
  old <> "" ->
  CSVAgg_init path w0 = (Ok self, w) ->
  node_at w path = Some (File old) /\
  for_each dfs (fun df => CSVAgg_append self (Some df)) w =
  (Ok tt, put w path (old +:+ appended_rows dfs)).
Proof.
  intros Hover Hfile Hold Hinit.
  assert (Hpath : agg_path self = path).
  { revert Hinit. unfold CSVAgg_init. rewrite bind_run. unfold path_exists.
    rewrite Hover, andb_false_r, bind_run. cbn [mret M_ret]. rewrite bind_run.
    destruct (mkdir (parent path) w0) as [[[]| |] w1]; try discriminate.
    cbn [mret M_ret]. by intros [= <- _]. }
  assert (Hkept : node_at w path = Some (File old)).
  { revert Hinit. unfold CSVAgg_init. rewrite bind_run. unfold path_exists.
    rewrite Hover, andb_false_r, bind_run. cbn [mret M_ret]. rewrite bind_run.
    destruct (mkdir (parent path) w0) as [[[]| |] w1] eqn:Hrun; try discriminate.
    cbn [mret M_ret]. intros [= _ <-].
    by apply (mkdir_from_keeps _ _ _ _ _ Hrun). }
  split; [exact Hkept|].
  rewrite <- Hpath in *. by apply appends_existing.
Qed.

(** An append either succeeds and rewrites its own file, or changes
    nothing at all. *)
Lemma CSVAgg_append_cases self df w :
  (exists data, CSVAgg_append self df w = (Ok tt, put w (agg_path self) data)) \/
  CSVAgg_append self df w = (Ok tt, w) \/
  (exists cls, CSVAgg_append self df w = (Raise (FsError cls), w)).
Proof.
  destruct df as [df|]; [|right; left; reflexivity].
  destruct (df_empty df) eqn:He.
  { right. left. by apply CSVAgg_append_nothing. }
  destruct (node_at w (agg_path self)) as [[old|]|] eqn:Hp.
  - left. eexists. by apply CSVAgg_append_existing.
  - right. right. exists "IsADirectoryError".
    unfold CSVAgg_append. rewrite He, bind_run. unfold path_exists. rewrite Hp.
    rewrite bool_decide_eq_true_2 by eauto. cbn [negb].
    run. unfold CSVAgg_has_header, try_except_cls. rewrite bind_run.
    unfold read_bytes. rewrite Hp. reflexivity.
  - destruct (node_at w (parent (agg_path self))) as [[d|]|] eqn:Hd.
    + right. right. exists "NotADirectoryError".
      unfold CSVAgg_append. rewrite He, bind_run. unfold path_exists. rewrite Hp.
      rewrite bool_decide_eq_false_2 by (intros [? ?]; discriminate). cbn [negb].
      rewrite bind_run. unfold write_text. rewrite bind_run.
      unfold open_write. rewrite Hp, Hd. reflexivity.
    + left. eexists. by apply CSVAgg_append_fresh.
    + right. right. exists "FileNotFoundError".
      unfold CSVAgg_append. rewrite He, bind_run. unfold path_exists. rewrite Hp.
      rewrite bool_decide_eq_false_2 by (intros [? ?]; discriminate). cbn [negb].
      rewrite bind_run. unfold write_text. rewrite bind_run.
      unfold open_write. rewrite Hp, Hd. reflexivity.
Qed.

(** X16: an append changes no path but its own, sends no request and
    prints nothing, whether it succeeds or raises. *)
Theorem CSVAgg_append_frame self df w res w' :
  CSVAgg_append self df w = (res, w') ->
  same_but_fs w w' /\
  (forall q, q <> agg_path self -> node_at w' q = node_at w q).
Proof.
  intros Hrun.
  destruct (CSVAgg_append_cases self df w) as [(data & H)|[H|(e & H)]];
    rewrite H in Hrun; injection Hrun as <- <-.
  - split; [by repeat split|].
    intros q Hq. destruct q as [|c q]; [reflexivity|].
    simpl. by rewrite lookup_insert_ne.
  - split; [apply same_but_fs_refl|done].
  - split; [apply same_but_fs_refl|done].
Qed.


(** *** More on main *)

Lemma bind_Ok_inv {A B} (c : M A) (f : A -> M B) w b w' :
  (c ≫= f) w = (Ok b, w') ->
  exists a w1, c w = (Ok a, w1) /\ f a w1 = (Ok b, w').
Proof.
  rewrite bind_run. destruct (c w) as [[a| |] w1]; try discriminate.
  intros H. by exists a, w1.
Qed.






Lemma col_index_In c cs i : col_index c cs = Some i -> In c cs.
Proof.
  revert i. induction cs as [|c' cs IH]; intros i; [discriminate|].
  simpl. destruct (String.eqb_spec c c') as [->|_]; [by left|].
  destruct (col_index c cs) as [j|]; [|discriminate].
  intros _. right. by apply (IH j).
Qed.

Lemma find_column_None key labels c :
  find_column key labels = None -> In c labels -> lower c <> key.
Proof.
  unfold find_column. intros Hnone Hin Hc.
  apply last_None in Hnone.
  assert (In c (List.filter (fun c => String.eqb (lower c) key) labels)) as Hf.
  { apply filter_In. split; [exact Hin|by apply String.eqb_eq]. }
  rewrite Hnone in Hf. destruct Hf.
Qed.

(** X19: when the target frame has no session_key column under any
    spelling of the label (no label whose lower-case form is
    "session_key", the text "session_key" being its own lower-case form),
    no row has a key: the loop over the target sessions sends no request,
    writes nothing and prints nothing. *)
Theorem no_session_key_column_no_fetch aggs y cs rs w :
  lower "session_key" = "session_key" ->
  find_column "session_key" cs = None ->
  for_each rs
    (session_body aggs y cs (default "session_key" (lower_index cs !! "session_key")))
    w = (Ok tt, w).
Proof.
  intros Hlow Hnone.
  rewrite lower_index_lookup, Hnone. cbn [default].
  assert (Hcol : col_index "session_key" cs = None).
  { destruct (col_index "session_key" cs) as [i|] eqn:Hi; [|reflexivity].
    apply col_index_In in Hi.
    destruct (find_column_None _ _ _ Hnone Hi Hlow). }
  induction rs as [|r rs IH]; [reflexivity|].
  cbn [for_each]. rewrite bind_run.
  unfold session_body at 1, session_key_of, row_get. rewrite Hcol. exact IH.
Qed.

Lemma filter_sessions_len df scope :
  (df_len (filter_sessions df scope) <= df_len df)%nat.
Proof.
  unfold df_len. rewrite filter_sessions_unfold.
  destruct (df_empty df || String.eqb scope "ALL"); [done|].
  destruct (existsb (row_selected df scope) (rows df)); [|done].
  cbn [rows loc]. rewrite select_map. apply List.filter_length_le.
Qed.

Lemma year_body_totals aggs y a b w a' b' w' :
  year_body aggs y (a, b) w = (Ok (a', b'), w') ->
  exists n m, (m <= n)%nat /\ a' = (a + n)%nat /\ b' = (b + m)%nat.
Proof.
  unfold year_body. intros H.
  apply bind_Ok_inv in H as (got & w1 & _ & H).
  destruct got as [sessions|].
  - apply bind_Ok_inv in H as (_ & w2 & _ & H).
    apply bind_Ok_inv in H as (_ & w3 & _ & H).
    apply bind_Ok_inv in H as (_ & w4 & _ & H).
    apply bind_Ok_inv in H as (_ & w5 & _ & H).
    cbn [mret M_ret] in H. injection H as <- <- _.
    exists (df_len sessions), (df_len (filter_sessions sessions (SESSION_SCOPE cfg))).
    split; [apply filter_sessions_len|]. by split.
  - cbn [mret M_ret] in H. injection H as <- <- _.
    exists 0%nat, 0%nat. lia.
Qed.

(** X21: the two totals of the summary only grow from year to year, and
    the count of targets never overtakes the count of sessions. *)
Theorem year_loop_totals aggs years a b w a' b' w' :
  year_loop aggs years (a, b) w = (Ok (a', b'), w') ->
  (b <= a)%nat ->
  (a <= a')%nat /\ (b <= b')%nat /\ (b' <= a')%nat.
Proof.
  revert a b w. induction years as [|y years IH]; intros a b w Hrun Hab.
  - cbn [year_loop mret M_ret] in Hrun. injection Hrun as <- <- _. lia.
  - cbn [year_loop] in Hrun.
    apply bind_Ok_inv in Hrun as ([a1 b1] & w1 & Hbody & Hrun).
    apply year_body_totals in Hbody as (n & m & Hmn & -> & ->).
    apply IH in Hrun; lia.
Qed.

(** X22: a year whose sessions cannot be fetched costs one line on the
    error stream and nothing else: the totals stand, no aggregator is
    written to, and the loop goes on with the next year. *)
Theorem year_loop_skips_failed_year aggs y years totals w e w1 :
  fetch_csv "sessions" {["year" := PInt y]} w = (Raise e, w1) ->
  year_loop aggs (y :: years) totals w =
  year_loop aggs years totals (advance w1 0 [Stderr (LogSessionsError y e)]).
Proof.
  intros Hf. cbn [year_loop]. rewrite bind_run.
  unfold year_body, try_except. rewrite !bind_run, Hf.
  unfold print_err, emit, advance. cbn [mret M_ret].
  by rewrite Nat.add_0_r.
Qed.

Lemma fetch_csv_no_data endpoint params w :
  no_data_net (net w) ->
  exists k evs,
    forallb is_net_event evs = true /\
    ((fetch_csv endpoint params w = (Ok empty_frame, advance w k evs)) \/
     (exists e, fetch_csv endpoint params w = (Raise e, advance w k evs))).
Proof.
  intros Hnet. unfold fetch_csv.
  destruct (RETRIES cfg) as [|n].
  - exists 0%nat, []. split; [reflexivity|]. right.
    eexists. cbn [seq fetch_loop]. unfold raise. by rewrite advance_0.
  - cbn [seq]. eexists 1%nat, _. split; [|left].
    2:{ apply fetch_loop_returns.
        destruct (Hnet (sent w) (mkRequest (BASE cfg +:+ "/" +:+ endpoint)
                                  (<["csv" := PStr "true"]> params) (TIMEOUT cfg)))
          as (r & -> & Hs).
        by apply no_data_status_outcome. }
    reflexivity.
Qed.

Lemma probe_years_no_data ys acc w :
  no_data_net (net w) ->
  exists k evs,
    forallb is_net_event evs = true /\
    probe_years ys acc w = (Ok acc, advance w k evs).
Proof.
  revert w. induction ys as [|y ys IH]; intros w Hnet.
  - exists 0%nat, []. split; [reflexivity|]. simpl. by rewrite advance_0.
  - cbn [probe_years]. rewrite bind_run. unfold try_except. rewrite bind_run.
    destruct (fetch_csv_no_data "sessions" {["year" := PInt y]} w Hnet)
      as (k1 & evs1 & Hev1 & [->|(e & ->)]); cbn [mret M_ret df_empty empty_frame columns negb];
      destruct (IH (advance w k1 evs1) Hnet) as (k & evs & Hev & ->);
      exists (k1 + k)%nat, (evs1 ++ evs); rewrite advance_advance;
      (split; [by rewrite forallb_app, Hev1, Hev|reflexivity]).
Qed.

(** X23: when the remote side has no data for any request, [main] makes
    its output directory, probes the years, reports on the error stream
    that no year was found and exits with status 1: no aggregator is
    constructed, no file is written and nothing goes to standard output. *)
Theorem main_exits_without_data w w1 :
  no_data_net (net w) ->
  mkdir (OUT_DIR cfg) w = (Ok tt, w1) ->
  exists k evs,
    forallb is_net_event evs = true /\
    main w = (Exit 1, advance w1 k (evs ++ [Stderr LogNoYears])).
Proof.
  intros Hnet Hmk.
  destruct (mkdir_from_keeps _ _ _ _ _ Hmk) as ((Hn & _) & _).
  assert (Hnet1 : no_data_net (net w1)) by (by rewrite Hn).
  unfold main. rewrite bind_run, Hmk, bind_run. unfold utcnow_year.
  rewrite bind_run. unfold available_years. rewrite bind_run, end_or_now_run.
  destruct (probe_years_no_data
              (range 2018 (end_year (Some (utc_year w1)) w1 + 1)) [] w1 Hnet1)
    as (k & evs & Hev & ->).
  exists k, evs. split; [exact Hev|].
  rewrite bind_run. unfold print_err, emit, sys_exit. cbn.
  unfold advance. cbn. by rewrite <- app_assoc.
Qed.


(** *** What can escape main *)



















Lemma col_index_Some c cs :
  In c cs -> exists i, col_index c cs = Some i /\ (i < length cs)%nat.
Proof.
  induction cs as [|c' cs IH]; intros Hin; [destruct Hin|].
  simpl. destruct (String.eqb_spec c c') as [->|Hne].
  - exists 0%nat. split; [reflexivity|simpl; lia].
  - destruct Hin as [->|Hin]; [done|].
    destruct (IH Hin) as (i & -> & Hi). exists (S i). split; [reflexivity|simpl; lia].
Qed.

(** X20: when the target frame has a session_key column, under whatever
    spelling of the label, the lookup [r[sk]] succeeds on every row that
    [iterrows] hands out with a cell for each column, and the key asked
    for is [int] of the cell as handed out (after the cast to the common
    dtype, not as stored): a row is passed over only because [int] refuses
    that cell. *)
Theorem session_key_lookup_succeeds df c r :
  find_column "session_key" (columns df) = Some c ->
  r ∈ iterrows df ->
  length r = length (columns df) ->
  exists v,
    row_get (columns df) r c = Some v /\
    session_key_of (columns df)
      (default "session_key" (lower_index (columns df) !! "session_key")) r
    = py_int v.
Proof.
  intros Hfind _ Hlen.
  rewrite lower_index_lookup, Hfind.
  change (default "session_key" (Some c)) with c.
  assert (Hin : In c (columns df)).
  { unfold find_column in Hfind. apply last_Some_elem_of in Hfind.
    apply list_elem_of_In, filter_In in Hfind. exact (proj1 Hfind). }
  destruct (col_index_Some c (columns df) Hin) as (i & Hi & Hlt).
  destruct (lookup_lt_is_Some_2 r i ltac:(lia)) as [v Hv].
  assert (Hget : row_get (columns df) r c = Some v).
  { unfold row_get. rewrite Hi. exact Hv. }
  exists v. split; [exact Hget|].
  unfold session_key_of. by rewrite Hget.
Qed.


End Pipeline.

(** ** The properties at the sample inputs *)

(** C1 at a session the server does not know: a timeout, then a 404 with
    an HTML body, give the empty frame. *)
Lemma fetch_csv_no_data_status_witness :
  let params : gmap string PyVal := {["session_key" := PInt 9999]} in
  let rq := request_of module_config "stints" params in
  let w := new_world unknown_net in
  fetch_csv sample_read_csv module_config "stints" params w =
  (Ok empty_frame,
   advance w 2 (retry_events module_config rq (seq 0 1) ++ [Get rq])).
Proof.
  intros params rq w.
  apply (fetch_csv_no_data_status sample_read_csv module_config "stints" params w
           [LibError "Timeout"] (mkResponse 404 "<html>Not Found</html>")).
  - simpl. lia.
  - intros [|k] e Hk; [|destruct k; discriminate].
    injection Hk as <-. reflexivity.
  - reflexivity.
  - right. right. reflexivity.
Defined.

(** C2 at a server that fails twice and then answers, and at one that is
    down for the whole budget. *)
Lemma fetch_csv_retry_backoff_witness :
  let params : gmap string PyVal := {["year" := PInt 2023]} in
  let rq := request_of module_config "sessions" params in
  (fetch_csv sample_read_csv module_config "sessions" params (new_world flaky_net) =
   (Ok sessions_frame,
    advance (new_world flaky_net) 3 [Get rq; Sleep 1; Get rq; Sleep 2; Get rq])) /\
  (fetch_csv sample_read_csv module_config "sessions" params (new_world down_net) =
   (Raise (RuntimeError "sessions" (req_params rq)
             (Some (HTTPError (Some (mkResponse 503 "Service Unavailable"))))),
    advance (new_world down_net) 4
      [Get rq; Sleep 1; Get rq; Sleep 2; Get rq; Sleep 4; Get rq; Sleep 8])) /\
  StronglySorted Z.lt [1; 2; 4; 8].
Proof.
  intros params rq.
  pose (e503 := HTTPError (Some (mkResponse 503 "Service Unavailable"))).
  assert (Hflaky : forall k e,
            [LibError "ConnectionError"; LibError "ConnectionError"] !! k = Some e ->
            transient_failure
              (net (new_world flaky_net) (sent (new_world flaky_net) + k) rq) = Some e).
  { intros [|[|[|k]]] e Hk; try discriminate; injection Hk as <-; reflexivity. }
  assert (Hdown : forall k e,
            [e503; e503; e503; e503] !! k = Some e ->
            transient_failure
              (net (new_world down_net) (sent (new_world down_net) + k) rq) = Some e).
  { intros [|[|[|[|k]]]] e Hk; try discriminate; injection Hk as <-; reflexivity. }
  split; [|split].
  - apply (fetch_csv_retry_backoff sample_read_csv module_config "sessions" params
             (new_world flaky_net)
             [LibError "ConnectionError"; LibError "ConnectionError"]
             ltac:(simpl; lia) Hflaky).
    + simpl. lia.
    + reflexivity.
  - apply (fetch_csv_retry_backoff sample_read_csv module_config "sessions" params
             (new_world down_net) [e503; e503; e503; e503]
             ltac:(simpl; lia) Hdown).
    reflexivity.
  - apply (fetch_csv_retry_backoff sample_read_csv module_config "sessions" params
             (new_world down_net) [e503; e503; e503; e503]
             ltac:(simpl; lia) Hdown).
    simpl. lia.
Defined.

(** C4 at the race, qualifying and sprint sessions: the sprint is
    selected under RACE_SPRINT, the qualifying is not. *)
Lemma session_mask_selects_witness :
  selects lower_ascii upper_ascii sample_repr_float three_sessions "RACE_SPRINT"
    [SStr "Sprint"] /\
  ~ selects lower_ascii upper_ascii sample_repr_float three_sessions "RACE_SPRINT"
      [SStr "Qualifying"].
Proof.
  pose proof (session_mask_selects lower_ascii upper_ascii sample_repr_float
                three_sessions "RACE_SPRINT") as H.
  split.
  - apply (Forall2_lookup_lr _ _ _ 2%nat [SStr "Sprint"] true H); reflexivity.
  - intros Hs.
    apply (Forall2_lookup_lr _ _ _ 1%nat [SStr "Qualifying"] false H) in Hs;
      [discriminate Hs|reflexivity|reflexivity].
Defined.

(** C7 over 2018 and 2019 when only 2018 has sessions. *)
Lemma available_years_discovers_witness :
  let run := available_years sample_read_csv module_config 2018 (Some 2019)
               (new_world only_2018_net) in
  run.1 = Ok [2018] /\
  discovers sample_read_csv module_config [2018; 2019]
    (new_world only_2018_net) [2018] run.2.
Proof.
  intros run.
  destruct (available_years_discovers sample_read_csv module_config 2018 (Some 2019)
              (new_world only_2018_net)) as (yrs & w' & Hrun & Hd & _).
  assert (Hfst : run.1 = Ok [2018]) by (vm_compute; reflexivity).
  split; [exact Hfst|].
  unfold run in *. rewrite Hrun in Hfst |- *. simpl in Hfst. injection Hfst as ->.
  exact Hd.
Defined.

(** C3 at a frame of practice and qualifying sessions. *)
Lemma filter_sessions_fail_open_witness :
  filter_sessions lower_ascii upper_ascii sample_repr_float practice_only "RACE_SPRINT" = practice_only.
Proof.
  apply (filter_sessions_fail_open lower_ascii upper_ascii sample_repr_float practice_only "RACE_SPRINT").
  intros r Hr Hsel. apply row_selected_spec in Hsel. simpl in Hr.
  apply elem_of_cons in Hr as [->|Hr]; [vm_compute in Hsel; discriminate Hsel|].
  apply elem_of_cons in Hr as [->|Hr]; [vm_compute in Hsel; discriminate Hsel|].
  by apply elem_of_nil in Hr.
Defined.

(** C5 at scope ALL and at a frame with a header and no row. *)
Lemma filter_sessions_identity_witness :
  filter_sessions lower_ascii upper_ascii sample_repr_float three_sessions "ALL" = three_sessions /\
  filter_sessions lower_ascii upper_ascii sample_repr_float header_only "RACE" = header_only.
Proof.
  split.
  - apply (filter_sessions_identity lower_ascii upper_ascii sample_repr_float three_sessions "ALL").
    left. reflexivity.
  - apply (filter_sessions_identity lower_ascii upper_ascii sample_repr_float header_only "RACE").
    right. reflexivity.
Defined.

(** C6, as the code has it, at the race, qualifying and sprint sessions. *)
Lemma filter_sessions_matching_witness :
  rows (filter_sessions lower_ascii upper_ascii sample_repr_float three_sessions "RACE_SPRINT") =
  List.filter (row_selected lower_ascii upper_ascii sample_repr_float three_sessions "RACE_SPRINT")
              (rows three_sessions).
Proof.
  apply (filter_sessions_matching lower_ascii upper_ascii sample_repr_float three_sessions "RACE_SPRINT").
  - reflexivity.
  - exists [SStr "Race"].
    split; [apply elem_of_cons; by left|by apply row_selected_spec].
Defined.

(** C6 as stated fails: the one row of [race_only] satisfies the selection
    of RACE, and the result is the whole frame, not a strict subset. *)
Lemma filter_sessions_not_strict :
  df_empty race_only = false /\
  (exists r, r ∈ rows race_only /\
             selects lower_ascii upper_ascii sample_repr_float race_only "RACE" r) /\
  filter_sessions lower_ascii upper_ascii sample_repr_float race_only "RACE" = race_only /\
  ~ (length (rows (filter_sessions lower_ascii upper_ascii sample_repr_float race_only "RACE"))
     < length (rows race_only))%nat.
Proof.
  split; [reflexivity|]. split.
  - exists [SStr "Race"].
    split; [apply elem_of_cons; by left|by apply row_selected_spec].
  - split; [reflexivity|]. vm_compute. lia.
Qed.

(** C9 at a frame where nothing matches. *)
Lemma filter_sessions_subset_witness :
  df_empty (filter_sessions lower_ascii upper_ascii sample_repr_float practice_only "SPRINT") = false.
Proof.
  apply (filter_sessions_subset lower_ascii upper_ascii sample_repr_float practice_only "SPRINT").
  reflexivity.
Defined.

(** C8 at a destination left by an earlier run: construction deletes it,
    the empty frame in the middle adds nothing, the header is there once. *)
Lemma CSVAgg_header_once_witness :
  let agg := mkCSVAgg stints_path in
  let w := (CSVAgg_init module_config stints_path used_world).2 in
  node_at w stints_path = None /\
  for_each [stints_a; header_only; stints_b]
    (fun df => CSVAgg_append sample_repr_float sample_csv_record agg (Some df)) w =
  (Ok tt,
   put w stints_path
     ("lap,compound" +:+ newline +:+
      "1,SOFT" +:+ newline +:+
      "18,HARD" +:+ newline +:+
      "1,MEDIUM" +:+ newline)).
Proof.
  intros agg w.
  assert (Hinit : CSVAgg_init module_config stints_path used_world = (Ok agg, w)).
  { vm_compute. reflexivity. }
  assert (Hcols : Forall (fun df => df_empty df = false -> columns df = ["lap"; "compound"])
                         [stints_a; header_only; stints_b]).
  { repeat constructor; discriminate. }
  pose proof (CSVAgg_header_once sample_repr_float sample_csv_record module_config
                stints_path used_world agg w ["lap"; "compound"]
                [stints_a; header_only; stints_b] eq_refl Hinit Hcols)
    as (_ & _ & Hfresh & Hrun & _).
  split; [exact Hfresh|exact Hrun].
Defined.

(** C10 at the row whose key reads "n/a". *)
Lemma session_without_key_skipped_witness :
  session_body int_of_ascii sample_repr_float sample_csv_record sample_read_csv module_config
    ∅ 2018 (columns sessions_frame) "session_key"
    [SStr "n/a"; SStr "Sprint"] (new_world only_2018_net) =
  (Ok tt, new_world only_2018_net).
Proof.
  apply (session_without_key_skipped int_of_ascii sample_repr_float sample_csv_record
           sample_read_csv module_config ∅ 2018 (columns sessions_frame)
           "session_key" [] [SStr "n/a"; SStr "Sprint"] []).
  reflexivity.
Defined.

(** ** The scenarios of the specification *)

(** Race, qualifying and sprint under RACE_SPRINT: the first and the third
    row. *)
Example filter_race_sprint_rows :
  rows (filter_sessions lower_ascii upper_ascii sample_repr_float three_sessions "RACE_SPRINT") =
  [[SStr "Race"]; [SStr "Sprint"]].
Proof. reflexivity. Qed.

(** The label is found whatever its case. *)
Example filter_mixed_case_label :
  rows (filter_sessions lower_ascii upper_ascii sample_repr_float sessions_frame "RACE") =
  [[SInt 9158; SStr "Race"]].
Proof. reflexivity. Qed.

(** Discovery over 2018 and 2019 when only 2018 has sessions. *)
Example discover_2018_only :
  (available_years sample_read_csv module_config 2018 (Some 2019)
     (new_world only_2018_net)).1 = Ok [2018].
Proof. vm_compute. reflexivity. Qed.

(** An end year of 0 counts as not given: the probes run up to the
    current year. *)
Example discover_end_zero :
  (available_years sample_read_csv module_config 2023 (Some 0)
     (new_world only_2018_net)).2 =
  advance (new_world only_2018_net) 2
    [Get (request_of module_config "sessions" {["year" := PInt 2023]});
     Get (request_of module_config "sessions" {["year" := PInt 2024]})].
Proof. vm_compute. reflexivity. Qed.

(** A 400 for the stints of session 9999 gives the empty frame, and
    appending it writes nothing: the destination stays absent. *)
Example stints_400_no_write :
  let w := new_world (fun _ _ => Replied (mkResponse 400 "Bad Request")) in
  let got := fetch_csv sample_read_csv module_config "stints"
               {["session_key" := PInt 9999]} w in
  got.1 = Ok empty_frame /\
  (CSVAgg_append sample_repr_float sample_csv_record (mkCSVAgg stints_path)
     (Some empty_frame) got.2) = (Ok tt, got.2) /\
  node_at got.2 stints_path = None.
Proof. vm_compute. repeat split. Qed.

(** [int] on cells. *)
Example py_int_cells :
  map (py_int int_of_ascii)
    [SStr " 12 "; SStr "-1_000"; SStr "1__0"; SStr "12.5"; SStr "";
     SFloat (S754_finite false 5 (-1)); SFloat S754_nan; SBool true; SInt 9158] =
  [Some 12; Some (-1000); None; None; None; Some 2; None; Some 1; Some 9158].
Proof. reflexivity. Qed.

(** A key next to a column of floats is asked for as the double nearest
    to it. *)
Example iterrows_float_key :
  let df := mkDataFrame ["session_key"; "gap"]
              [[SInt 9007199254740993; SFloat (S754_finite false 3 (-1))]] eq_refl in
  map (session_key_of int_of_ascii (columns df) "session_key") (rows df)
  = [Some 9007199254740993] /\
  map (session_key_of int_of_ascii (columns df) "session_key") (sample_iterrows df)
  = [Some 9007199254740992].
Proof. vm_compute. by split. Qed.

(** A whole run against a server with data for 2018 only: the per-session
    endpoints are asked for session 9158 and never for the row without a
    key, and nothing is reported on the error stream. *)
Example main_sample_run :
  let run := main lower_ascii upper_ascii int_of_ascii sample_iterrows sample_repr_float sample_csv_record sample_read_csv module_config
               (new_world only_2018_net) in
  run.1 = Ok tt /\
  omap (fun ev => match ev with
                  | Get rq => req_params rq !! "session_key"
                  | _ => None
                  end) (trace run.2) = repeat (PInt 9158) 6 /\
  omap (fun ev => match ev with Stderr l => Some l | _ => None end) (trace run.2) = [] /\
  omap (fun ev => match ev with Stdout l => Some l | _ => None end) (trace run.2) =
  [LogDetected [2018]; LogYear 2018 3 2; LogDone [2018] 3 2;
   LogOutput ["data"; "openf1_full"]; LogFile "sessions_all.csv";
   LogFile "meetings_all.csv"; LogFile "stints_all.csv";
   LogFile "pit_all.csv"; LogFile "weather_all.csv";
   LogFile "starting_grid_all.csv"; LogFile "session_result_all.csv";
   LogFile "race_control_all.csv"].
Proof. vm_compute. repeat split. Qed.

(** ** The further properties at the sample inputs *)

Lemma fetch_csv_blank_body_witness :
  (fetch_csv sample_read_csv module_config "weather" {["session_key" := PInt 9158]}
     (new_world blank_net)).1 = Ok empty_frame.
Proof.
  rewrite (fetch_csv_blank_body sample_read_csv module_config "weather"
             {["session_key" := PInt 9158]} (new_world blank_net) []
             (mkResponse 200 (" " +:+ newline +:+ "  "))).
  - reflexivity.
  - simpl. lia.
  - intros k e Hk. destruct k; discriminate.
  - reflexivity.
  - reflexivity.
  - reflexivity.
Defined.

Lemma fetch_csv_parse_failure_witness :
  (fetch_csv sample_read_csv module_config "pit" {["session_key" := PInt 9158]}
     (new_world garbled_net)).1 =
  Raise (RuntimeError "pit"
           (<["csv" := PStr "true"]> {["session_key" := PInt 9158]})
           (Some (LibError "ParserError"))).
Proof.
  rewrite (fetch_csv_parse_failure sample_read_csv module_config "pit"
             {["session_key" := PInt 9158]} (new_world garbled_net)
             (repeat (LibError "ParserError") 4)).
  - reflexivity.
  - reflexivity.
  - intros [|[|[|[|k]]]] e Hk; try discriminate; injection Hk as <-; reflexivity.
Defined.

Lemma available_years_ascending_witness :
  StronglySorted Z.lt [2018] /\ Forall (fun y => 2018 <= y <= 2019) [2018].
Proof.
  apply (available_years_ascending sample_read_csv module_config 2018 (Some 2019)
           (new_world only_2018_net) [2018]
           (available_years sample_read_csv module_config 2018 (Some 2019)
              (new_world only_2018_net)).2).
  vm_compute. reflexivity.
Defined.

Lemma available_years_empty_range_witness :
  available_years sample_read_csv module_config 2020 (Some 2019) (new_world down_net) =
  (Ok [], new_world down_net).
Proof.
  apply (available_years_empty_range sample_read_csv module_config 2020 (Some 2019)).
  simpl. lia.
Defined.

Lemma filter_sessions_other_scope_witness :
  filter_sessions lower_ascii upper_ascii sample_repr_float three_sessions "race" = three_sessions.
Proof.
  apply (filter_sessions_other_scope lower_ascii upper_ascii sample_repr_float three_sessions "race");
    discriminate.
Defined.

Lemma filter_sessions_no_columns_witness :
  filter_sessions lower_ascii upper_ascii sample_repr_float stints_a "RACE_SPRINT" = stints_a.
Proof.
  apply (filter_sessions_no_columns lower_ascii upper_ascii sample_repr_float stints_a "RACE_SPRINT");
    reflexivity.
Defined.

Lemma filter_sessions_race_within_sprint_witness :
  sublist (rows (filter_sessions lower_ascii upper_ascii sample_repr_float three_sessions "RACE"))
          (rows (filter_sessions lower_ascii upper_ascii sample_repr_float three_sessions "RACE_SPRINT")).
Proof.
  apply (filter_sessions_race_within_sprint lower_ascii upper_ascii sample_repr_float three_sessions).
  - reflexivity.
  - exists [SStr "Race"]. split; [apply elem_of_cons; by left|reflexivity].
Defined.

Lemma lower_index_labels_witness :
  "Session_Name" ∈ columns sessions_frame /\
  lower_ascii "Session_Name" = "session_name".
Proof.
  apply (proj1 (lower_index_labels lower_ascii (columns sessions_frame))
           "session_name" "Session_Name").
  vm_compute. reflexivity.
Defined.

Lemma mkdir_idempotent_witness :
  let w' := (mkdir ["data"; "openf1_full"] (new_world down_net)).2 in
  node_at w' ["data"; "openf1_full"] = Some Dir /\
  mkdir ["data"; "openf1_full"] w' = (Ok tt, w').
Proof.
  intros w'.
  destruct (mkdir_idempotent ["data"; "openf1_full"] (new_world down_net) w')
    as (Hdir & _ & _ & _ & Hagain).
  - vm_compute. reflexivity.
  - by split.
Defined.

Lemma CSVAgg_first_header_witness :
  for_each [header_only; stints_a; three_sessions]
    (fun df => CSVAgg_append sample_repr_float sample_csv_record
                 (mkCSVAgg stints_path) (Some df))
    (ready_world down_net) =
  (Ok tt,
   put (ready_world down_net) stints_path
     ("lap,compound" +:+ newline +:+
      "1,SOFT" +:+ newline +:+
      "18,HARD" +:+ newline +:+
      "Race" +:+ newline +:+
      "Qualifying" +:+ newline +:+
      "Sprint" +:+ newline)).
Proof.
  apply (CSVAgg_first_header sample_repr_float sample_csv_record
           (mkCSVAgg stints_path) [header_only; stints_a; three_sessions]
           (ready_world down_net)); reflexivity.
Defined.

Lemma CSVAgg_keeps_without_overwrite_witness :
  let w := (CSVAgg_init append_config stints_path used_world).2 in
  node_at w stints_path = Some (File "stale") /\
  for_each [stints_b]
    (fun df => CSVAgg_append sample_repr_float sample_csv_record
                 (mkCSVAgg stints_path) (Some df)) w =
  (Ok tt, put w stints_path ("stale" +:+ "1,MEDIUM" +:+ newline)).
Proof.
  intros w.
  apply (CSVAgg_keeps_without_overwrite sample_repr_float sample_csv_record
           append_config stints_path used_world (mkCSVAgg stints_path) w
           "stale" [stints_b]).
  - reflexivity.
  - reflexivity.
  - discriminate.
  - vm_compute. reflexivity.
Defined.

Lemma CSVAgg_append_frame_witness :
  let run := CSVAgg_append sample_repr_float sample_csv_record
               (mkCSVAgg ["data"; "openf1_full"; "pit_all.csv"]) (Some stints_a)
               used_world in
  node_at run.2 stints_path = Some (File "stale").
Proof.
  intros run.
  destruct (CSVAgg_append_frame sample_repr_float sample_csv_record
              (mkCSVAgg ["data"; "openf1_full"; "pit_all.csv"]) (Some stints_a)
              used_world run.1 run.2) as (_ & Hother).
  - apply surjective_pairing.
  - rewrite Hother; [reflexivity|discriminate].
Defined.



Lemma no_session_key_column_no_fetch_witness :
  for_each (rows three_sessions)
    (session_body int_of_ascii sample_repr_float sample_csv_record sample_read_csv module_config
       sample_aggs 2018 (columns three_sessions)
       (default "session_key"
          (lower_index lower_ascii (columns three_sessions) !! "session_key")))
    (new_world only_2018_net) = (Ok tt, new_world only_2018_net).
Proof.
  apply (no_session_key_column_no_fetch lower_ascii int_of_ascii sample_repr_float
           sample_csv_record sample_read_csv module_config);
    reflexivity.
Defined.

Lemma year_loop_totals_witness :
  (0 <= 3)%nat /\ (0 <= 2)%nat /\ (2 <= 3)%nat.
Proof.
  apply (year_loop_totals lower_ascii upper_ascii int_of_ascii sample_iterrows sample_repr_float sample_csv_record sample_read_csv
           module_config sample_aggs [2018] 0%nat 0%nat (ready_world only_2018_net)
           3%nat 2%nat
           (year_loop lower_ascii upper_ascii int_of_ascii sample_iterrows sample_repr_float sample_csv_record sample_read_csv
              module_config sample_aggs [2018] (0, 0)%nat
              (ready_world only_2018_net)).2).
  - vm_compute. reflexivity.
  - lia.
Defined.

Lemma year_loop_skips_failed_year_witness :
  let e := RuntimeError "sessions" (<["csv" := PStr "true"]> {["year" := PInt 2018]})
             (Some (HTTPError (Some (mkResponse 503 "Service Unavailable")))) in
  let w1 := (fetch_csv sample_read_csv module_config "sessions" {["year" := PInt 2018]}
               (ready_world down_net)).2 in
  year_loop lower_ascii upper_ascii int_of_ascii sample_iterrows sample_repr_float sample_csv_record sample_read_csv module_config
    sample_aggs [2018] (0, 0)%nat (ready_world down_net) =
  (Ok (0, 0)%nat, advance w1 0 [Stderr (LogSessionsError 2018 e)]).
Proof.
  intros e w1.
  rewrite (year_loop_skips_failed_year lower_ascii upper_ascii int_of_ascii sample_iterrows sample_repr_float sample_csv_record
             sample_read_csv module_config sample_aggs 2018 [] (0, 0)%nat
             (ready_world down_net) e w1).
  - reflexivity.
  - vm_compute. reflexivity.
Defined.

Lemma main_exits_without_data_witness :
  (main lower_ascii upper_ascii int_of_ascii sample_iterrows sample_repr_float sample_csv_record sample_read_csv module_config
     (new_world quiet_net)).1 = Exit 1.
Proof.
  destruct (main_exits_without_data lower_ascii upper_ascii int_of_ascii sample_iterrows sample_repr_float sample_csv_record
              sample_read_csv module_config (new_world quiet_net)
              (mkdir (OUT_DIR module_config) (new_world quiet_net)).2)
    as (k & evs & _ & Hrun).
  - intros k rq. exists (mkResponse 204 ""). split; [reflexivity|by left].
  - vm_compute. reflexivity.
  - by rewrite Hrun.
Defined.


Lemma session_key_lookup_succeeds_witness :
  exists v,
    row_get (columns sessions_frame) [SInt 9158; SStr "Race"] "session_key" = Some v /\
    session_key_of int_of_ascii (columns sessions_frame)
      (default "session_key"
         (lower_index lower_ascii (columns sessions_frame) !! "session_key"))
      [SInt 9158; SStr "Race"] = py_int int_of_ascii v.
Proof.
  apply (session_key_lookup_succeeds lower_ascii int_of_ascii sample_iterrows
           sessions_frame "session_key" [SInt 9158; SStr "Race"]).
  - reflexivity.
  - apply elem_of_cons. by left.
  - reflexivity.
Defined.
